(** * Oracle Prime: agent registry, task allocation and task lifecycle

    A shallow embedding of [src/agents/oracle_prime.py]: the coordinator
    state of class [OraclePrime] (agent registry, active tasks, task
    history, system metrics) and its operations [register_agent],
    [allocate_task] and [update_task_status], followed by the properties
    of the allocation engine and of the task state machine.

    Python dictionaries that are iterated ([registered_agents]) are
    association lists in insertion order; [active_tasks], which is only
    indexed, is a [gmap].  Python floats are kept behind the interface
    [Arith], with two instances: IEEE binary64 ([PrimFloat], what the
    interpreter computes; the example runs are evaluated in it) and exact
    rationals ([Q]), over which only the two averaging recurrences are
    replayed. *)

From Stdlib Require Import ZArith QArith Floats Uint63 Sorting.Sorted.
From stdpp Require Import gmap strings list pretty.

Close Scope Q_scope.
Local Open Scope string_scope.
Local Open Scope list_scope.
Local Open Scope stdpp_scope.
Local Open Scope nat_scope.

(** ** Arithmetic of the interpreter *)

(** The operations the source applies to numbers.  [of_int] is the
    conversion that Python performs when an [int] meets a [float] (and on
    both sides of a true division [int / int]); the literals are the
    float literals that occur in the source. *)
Class Arith (F : Type) := {
  of_int : Z -> F;
  fadd : F -> F -> F;
  fsub : F -> F -> F;
  fmul : F -> F -> F;
  fdiv : F -> F -> F;
  flt : F -> F -> bool;
  lit_0_0 : F;
  lit_0_3 : F;
  lit_0_5 : F;
  lit_0_8 : F;
  lit_1_0 : F
}.

(** *** binary64 *)

(** Exact for the integers below 2^53 in absolute value, which covers
    every counter, list length and microsecond clock reading met here. *)

Definition float_of_int (z : Z) : float :=
  if (z <? 0)%Z then PrimFloat.opp (PrimFloat.of_uint63 (Uint63.of_Z (- z)))
  else PrimFloat.of_uint63 (Uint63.of_Z z).

#[export] Instance binary64 : Arith float := {|
  of_int := float_of_int;
  fadd := PrimFloat.add;
  fsub := PrimFloat.sub;
  fmul := PrimFloat.mul;
  fdiv := PrimFloat.div;
  flt := PrimFloat.ltb;
  lit_0_0 := float_of_int 0;
  lit_0_3 := PrimFloat.div (float_of_int 3) (float_of_int 10);
  lit_0_5 := PrimFloat.div (float_of_int 1) (float_of_int 2);
  lit_0_8 := PrimFloat.div (float_of_int 8) (float_of_int 10);
  lit_1_0 := float_of_int 1
|}.

(** *** exact rationals

    Used to replay the running averages of [update_task_status] on given
    outcomes and durations; the coordinator is never run over them, since
    a run over [Q] can select other agents than the interpreter does. *)

Definition Qltb (x y : Q) : bool := negb (Qle_bool y x).

Definition rational : Arith Q := {|
  of_int := inject_Z;
  fadd := Qplus;
  fsub := Qminus;
  fmul := Qmult;
  fdiv := Qdiv;
  flt := Qltb;
  lit_0_0 := inject_Z 0;
  lit_0_3 := Qmake 3 10;
  lit_0_5 := Qmake 1 2;
  lit_0_8 := Qmake 8 10;
  lit_1_0 := inject_Z 1
|}.

(** ** Results of calls that may raise *)

Inductive outcome (A : Type) : Type :=
| Returned (a : A)
| KeyError (key : string).
Arguments Returned {A} a.
Arguments KeyError {A} key.

Definition obind {A B : Type} (o : outcome A) (k : A -> outcome B) : outcome B :=
  match o with
  | Returned a => k a
  | KeyError key => KeyError key
  end.

Notation "'try!' x ':=' c1 'in' c2" := (obind c1 (fun x => c2))
  (at level 10, x name, c1 at level 100, c2 at level 200).

(** ** Small list programs of the Python runtime *)

(** [list.remove(x)]: drop the first occurrence. *)
Fixpoint remove_first (x : string) (l : list string) : list string :=
  match l with
  | [] => []
  | y :: l' => if String.eqb x y then l' else y :: remove_first x l'
  end.

(** [x in l] on a list of strings. *)
Definition mem (x : string) (l : list string) : bool :=
  existsb (String.eqb x) l.

(** [l[:k]] for any integer [k]: a negative bound counts from the end. *)
Definition slice_to {A : Type} (k : Z) (l : list A) : list A :=
  if (k <? 0)%Z then firstn (Z.to_nat (Z.of_nat (length l) + k)) l
  else firstn (Z.to_nat k) l.

Section Coordinator.

Context {F : Type} {arith : Arith F}.

(** ** Data model *)

Record performance_metrics := {
  tasks_completed : nat;
  success_rate : F;
  average_response_time : F
}.

Record agent_info := {
  agent_type : string;
  capabilities : list string;
  endpoint : option string;
  a_status : string;
  registration_time : Z;
  last_activity : Z;
  assigned_tasks : list string;
  performance : performance_metrics;
  a_kg_entity_id : option string
}.

(** The task specification dictionary; every key is optional, as it is
    read with [dict.get]. *)
Record task_spec := {
  ts_task_id : option string;
  ts_task_type : option string;
  ts_required_capabilities : option (list string);
  ts_priority : option Z;
  ts_deadline : option string;
  ts_parallel_execution : option bool;
  ts_parallelism : option Z
}.

Record allocation := {
  al_task_id : string;
  allocation_type : string;
  allocated_agents : list string;
  allocation_time : Z;
  expected_completion : option Z;
  al_priority : Z;
  al_status : string
}.

Record unallocated := {
  u_task_id : string;
  u_status : string;
  u_reason : string;
  u_timestamp : Z
}.

Inductive allocation_result :=
| Unallocated (u : unallocated)
| Allocated (a : allocation).

Record task := {
  t_spec : task_spec;
  t_allocation : allocation;
  start_time : Z;
  t_status : string;
  progress : F;
  t_kg_entity_id : option string;
  t_result : option string;
  last_updated : option Z;
  end_time : option Z;
  duration_seconds : option F
}.

Record system_metrics := {
  m_tasks_completed : nat;
  m_tasks_failed : nat;
  average_completion_time : F
}.

Record state := {
  registered_agents : list (string * agent_info);
  active_tasks : gmap string task;
  task_history : list task;
  metrics : system_metrics
}.

(** [OraclePrime.__init__] *)
Definition init : state := {|
  registered_agents := [];
  active_tasks := ∅;
  task_history := [];
  metrics := {| m_tasks_completed := 0; m_tasks_failed := 0;
                average_completion_time := of_int 0 |}
|}.

(** ** The registry dictionary *)

Fixpoint agents_lookup (agent_id : string) (l : list (string * agent_info))
  : option agent_info :=
  match l with
  | [] => None
  | (k, a) :: l' => if String.eqb agent_id k then Some a else agents_lookup agent_id l'
  end.

(** In-place mutation of the record stored under [agent_id]. *)
Fixpoint agents_update (agent_id : string) (f : agent_info -> agent_info)
  (l : list (string * agent_info)) : list (string * agent_info) :=
  match l with
  | [] => []
  | (k, a) :: l' =>
      if String.eqb agent_id k then (k, f a) :: l'
      else (k, a) :: agents_update agent_id f l'
  end.

(** ** register_agent *)

(** Lines 97-162.  [now] is the clock reading ([datetime.now()]; the
    readings taken within one call are identified) and [kg] the entity ID
    that the knowledge graph returns when one is attached and its calls
    succeed, [None] otherwise. *)
Definition register_agent (agent_id agent_ty : string) (caps : list string)
  (ep : option string) (now : Z) (kg : option string) (s : state) : bool * state :=
  match agents_lookup agent_id (registered_agents s) with
  | Some _ => (false, s)
  | None =>
      let a := {|
        agent_type := agent_ty;
        capabilities := caps;
        endpoint := ep;
        a_status := "active";
        registration_time := now;
        last_activity := now;
        assigned_tasks := [];
        performance := {| tasks_completed := 0;
                          success_rate := lit_1_0;
                          average_response_time := of_int 0 |};
        a_kg_entity_id := kg
      |} in
      (true, {| registered_agents := registered_agents s ++ [(agent_id, a)];
                active_tasks := active_tasks s;
                task_history := task_history s;
                metrics := metrics s |})
  end.

(** ** allocate_task *)

Record suitable_agent := {
  sa_agent_id : string;
  score : F;
  load_factor : F
}.

(** The body of the loop over the registry (lines 190-207), for an agent
    that passed the status and capability tests. *)
Definition score_agent (required : list string) (agent_id : string)
  (a : agent_info) : suitable_agent :=
  let lf := fdiv (of_int (Z.of_nat (length (assigned_tasks a)))) (of_int 10) in
  let capability_match :=
    length (List.filter (fun cap => mem cap (capabilities a)) required) in
  let capability_score :=
    match required with
    | [] => lit_1_0
    | _ :: _ => fdiv (of_int (Z.of_nat capability_match))
                     (of_int (Z.of_nat (length required)))
    end in
  let performance_factor := success_rate (performance a) in
  {| sa_agent_id := agent_id;
     score := fmul (fadd (fmul capability_score lit_0_5)
                         (fmul performance_factor lit_0_3))
                   (fsub (of_int 1) (fmul lf lit_0_8));
     load_factor := lf |}.

Definition eligible (required : list string) (a : agent_info) : bool :=
  String.eqb (a_status a) "active"
  && forallb (fun cap => mem cap (capabilities a)) required.

Fixpoint suitable_agents (required : list string)
  (l : list (string * agent_info)) : list suitable_agent :=
  match l with
  | [] => []
  | (agent_id, a) :: l' =>
      if eligible required a
      then score_agent required agent_id a :: suitable_agents required l'
      else suitable_agents required l'
  end.

(** [list.sort(key=score, reverse=True)]: a stable sort into descending
    order; entries with equal keys keep their relative order. *)
Fixpoint insert_desc (x : suitable_agent) (l : list suitable_agent)
  : list suitable_agent :=
  match l with
  | [] => [x]
  | y :: l' => if flt (score x) (score y) then y :: insert_desc x l'
               else x :: y :: l'
  end.

Fixpoint sort_desc (l : list suitable_agent) : list suitable_agent :=
  match l with
  | [] => []
  | x :: l' => insert_desc x (sort_desc l')
  end.

(** The strategy choice on the sorted, non-empty candidate list (lines
    222-230). *)
Definition select_agents (spec : task_spec) (sorted : list suitable_agent)
  : list suitable_agent * string :=
  if default false (ts_parallel_execution spec)
     && (1 <? length sorted)
  then
    let num_agents := Z.min (default 2%Z (ts_parallelism spec))
                            (Z.of_nat (length sorted)) in
    (slice_to num_agents sorted, "parallel")
  else (firstn 1 sorted, "single").

(** Lines 244-247, for one selected agent. *)
Definition assign (task_id : string) (now : Z) (a : agent_info) : agent_info :=
  {| agent_type := agent_type a;
     capabilities := capabilities a;
     endpoint := endpoint a;
     a_status := a_status a;
     registration_time := registration_time a;
     last_activity := now;
     assigned_tasks := assigned_tasks a ++ [task_id];
     performance := performance a;
     a_kg_entity_id := a_kg_entity_id a |}.

Definition assign_all (task_id : string) (now : Z) (selected : list string)
  (l : list (string * agent_info)) : list (string * agent_info) :=
  fold_left (fun acc agent_id => agents_update agent_id (assign task_id now) acc)
            selected l.

Definition new_allocation (task_id ty : string) (agents : list string)
  (now priority : Z) : allocation :=
  {| al_task_id := task_id;
     allocation_type := ty;
     allocated_agents := agents;
     allocation_time := now;
     expected_completion := None;
     al_priority := priority;
     al_status := "allocated" |}.

Definition new_task (spec : task_spec) (alloc : allocation) (now : Z)
  (kg : option string) : task :=
  {| t_spec := spec;
     t_allocation := alloc;
     start_time := now;
     t_status := "allocated";
     progress := lit_0_0;
     t_kg_entity_id := kg;
     t_result := None;
     last_updated := None;
     end_time := None;
     duration_seconds := None |}.

(** Lines 164-297.  [gen_id] is the identifier drawn from [uuid4] for a
    specification without a task ID; [now] and [kg] are as in
    [register_agent].  The source reads the clock for the allocation
    time (line 237), once per selected agent for its last activity
    (line 247) and for the start time (line 253); [now] stands for all of
    these readings, which nothing in the coordinator compares, and the
    properties below state nothing about how they relate. *)
Definition allocate_task (spec : task_spec) (gen_id : string) (now : Z)
  (kg : option string) (s : state) : allocation_result * state :=
  let task_id := default gen_id (ts_task_id spec) in
  let required_capabilities := default [] (ts_required_capabilities spec) in
  let priority := default 5%Z (ts_priority spec) in
  let candidates := suitable_agents required_capabilities (registered_agents s) in
  match candidates with
  | [] =>
      (Unallocated {| u_task_id := task_id;
                      u_status := "unallocated";
                      u_reason := "no_suitable_agents";
                      u_timestamp := now |}, s)
  | _ :: _ =>
      let selection := select_agents spec (sort_desc candidates) in
      let selected_agents := selection.1 in
      let alloc := new_allocation task_id selection.2
                     (sa_agent_id <$> selected_agents) now priority in
      (Allocated alloc,
       {| registered_agents :=
            assign_all task_id now (sa_agent_id <$> selected_agents)
                       (registered_agents s);
          active_tasks := <[task_id := new_task spec alloc now kg]> (active_tasks s);
          task_history := task_history s;
          metrics := metrics s |})
  end.

(** ** update_task_status *)

Definition is_terminal (status : string) : bool :=
  String.eqb status "completed" || String.eqb status "failed".

(** The running average of lines 379-385, with [completed] the counter
    after its increment; the second branch is taken for "failed". *)
Definition new_success_rate (status : string) (completed : nat) (rate : F) : F :=
  if String.eqb status "completed"
  then fdiv (fadd (fmul rate (of_int (Z.of_nat completed - 1))) lit_1_0)
            (of_int (Z.of_nat completed))
  else fdiv (fadd (fmul rate (of_int (Z.of_nat completed - 1))) lit_0_0)
            (of_int (Z.of_nat completed)).

(** Lines 369-385, for one agent of the task. *)
Definition settle (task_id status : string) (a : agent_info) : agent_info :=
  let completed := S (tasks_completed (performance a)) in
  {| agent_type := agent_type a;
     capabilities := capabilities a;
     endpoint := endpoint a;
     a_status := a_status a;
     registration_time := registration_time a;
     last_activity := last_activity a;
     assigned_tasks :=
       if mem task_id (assigned_tasks a)
       then remove_first task_id (assigned_tasks a)
       else assigned_tasks a;
     performance :=
       {| tasks_completed := completed;
          success_rate :=
            new_success_rate status completed (success_rate (performance a));
          average_response_time := average_response_time (performance a) |};
     a_kg_entity_id := a_kg_entity_id a |}.

(** The loop over [task["allocation"]["allocated_agents"]]; indexing the
    registry with an unknown agent raises. *)
Fixpoint settle_all (task_id status : string) (agents : list string)
  (l : list (string * agent_info)) : outcome (list (string * agent_info)) :=
  match agents with
  | [] => Returned l
  | agent_id :: rest =>
      match agents_lookup agent_id l with
      | None => KeyError agent_id
      | Some _ =>
          settle_all task_id status rest
                     (agents_update agent_id (settle task_id status) l)
      end
  end.

(** [timedelta.total_seconds()], clock readings being counted in
    microseconds. *)
Definition total_seconds (microseconds : Z) : F :=
  fdiv (of_int microseconds) (of_int 1000000).

(** Lines 392-399. *)
Definition update_metrics (status : string) (duration : F) (m : system_metrics)
  : system_metrics :=
  if String.eqb status "completed"
  then
    let completed := S (m_tasks_completed m) in
    {| m_tasks_completed := completed;
       m_tasks_failed := m_tasks_failed m;
       average_completion_time :=
         fdiv (fadd (fmul (average_completion_time m)
                          (of_int (Z.of_nat completed - 1))) duration)
              (of_int (Z.of_nat completed)) |}
  else
    {| m_tasks_completed := m_tasks_completed m;
       m_tasks_failed := S (m_tasks_failed m);
       average_completion_time := average_completion_time m |}.

(** Lines 326-426.  The knowledge-graph calls at the end change nothing
    in the coordinator. *)
Definition update_task_status (task_id status : string) (prog : option F)
  (result : option string) (now : Z) (s : state) : outcome (bool * state) :=
  match active_tasks s !! task_id with
  | None => Returned (false, s)
  | Some t =>
      let t1 := {|
        t_spec := t_spec t;
        t_allocation := t_allocation t;
        start_time := start_time t;
        t_status := status;
        progress := default (progress t) prog;
        t_kg_entity_id := t_kg_entity_id t;
        t_result := match result with Some r => Some r | None => t_result t end;
        last_updated := Some now;
        end_time := end_time t;
        duration_seconds := duration_seconds t
      |} in
      if is_terminal status then
        let duration := total_seconds (now - start_time t)%Z in
        let t2 := {|
          t_spec := t_spec t1;
          t_allocation := t_allocation t1;
          start_time := start_time t1;
          t_status := t_status t1;
          progress := progress t1;
          t_kg_entity_id := t_kg_entity_id t1;
          t_result := t_result t1;
          last_updated := last_updated t1;
          end_time := Some now;
          duration_seconds := Some duration
        |} in
        try! agents' := settle_all task_id status
                          (allocated_agents (t_allocation t)) (registered_agents s) in
        Returned (true,
          {| registered_agents := agents';
             active_tasks := delete task_id (active_tasks s);
             task_history := task_history s ++ [t2];
             metrics := update_metrics status duration (metrics s) |})
      else
        Returned (true,
          {| registered_agents := registered_agents s;
             active_tasks := <[task_id := t1]> (active_tasks s);
             task_history := task_history s;
             metrics := metrics s |})
  end.

(** ** Call sequences *)

Inductive call :=
| Register (agent_id agent_ty : string) (caps : list string)
    (ep : option string) (now : Z) (kg : option string)
| Allocate (spec : task_spec) (gen_id : string) (now : Z) (kg : option string)
| Update (task_id status : string) (prog : option F) (result : option string)
    (now : Z).

Definition step (s : state) (c : call) : outcome state :=
  match c with
  | Register agent_id agent_ty caps ep now kg =>
      Returned (snd (register_agent agent_id agent_ty caps ep now kg s))
  | Allocate spec gen_id now kg =>
      Returned (snd (allocate_task spec gen_id now kg s))
  | Update task_id status prog result now =>
      try! r := update_task_status task_id status prog result now s in
      Returned (snd r)
  end.

Fixpoint run (s : state) (cs : list call) : outcome state :=
  match cs with
  | [] => Returned s
  | c :: cs' => try! s' := step s c in run s' cs'
  end.

(** The states the coordinator can be in. *)
Definition reachable (s : state) : Prop :=
  exists cs, run init cs = Returned s.

(** ** Observations on call sequences *)

(** The calls of a sequence, each with the state it was made in. *)
Fixpoint trace (s : state) (cs : list call) : list (state * call) :=
  match cs with
  | [] => []
  | c :: cs' =>
      (s, c) :: match step s c with
                | Returned s' => trace s' cs'
                | KeyError _ => []
                end
  end.

(** The call is an [allocate_task] that selects the agent. *)
Definition selects (agent_id : string) (sc : state * call) : bool :=
  match sc.2 with
  | Allocate spec gen_id now kg =>
      match (allocate_task spec gen_id now kg sc.1).1 with
      | Allocated alloc => mem agent_id (allocated_agents alloc)
      | Unallocated _ => false
      end
  | _ => false
  end.

(** The call is an [update_task_status] that moves an active task of the
    agent to "completed" ([Some true]) or "failed" ([Some false]). *)
Definition settles (agent_id : string) (sc : state * call) : option bool :=
  match sc.2 with
  | Update task_id status _ _ _ =>
      match active_tasks sc.1 !! task_id with
      | Some t =>
          if is_terminal status
             && mem agent_id (allocated_agents (t_allocation t))
          then Some (String.eqb status "completed")
          else None
      | None => None
      end
  | _ => None
  end.

Definition allocations (agent_id : string) (s : state) (cs : list call) : nat :=
  length (List.filter (selects agent_id) (trace s cs)).

Definition outcomes (agent_id : string) (s : state) (cs : list call) : list bool :=
  omap (settles agent_id) (trace s cs).

Definition terminal_transitions (agent_id : string) (s : state)
  (cs : list call) : nat :=
  length (outcomes agent_id s cs).

(** The running average replayed over a list of outcomes, from the
    counter [n] and the rate [r]. *)
Fixpoint replay_rate (os : list bool) (n : nat) (r : F) : F :=
  match os with
  | [] => r
  | o :: os' =>
      replay_rate os' (S n)
        (new_success_rate (if o then "completed" else "failed") (S n) r)
  end.

Definition completed_count (os : list bool) : nat :=
  length (List.filter (fun o : bool => o) os).

(** The task IDs of the historical collection. *)
Definition history_ids (s : state) : list string :=
  (fun t => al_task_id (t_allocation t)) <$> task_history s.

(** No allocation of the sequence is made under the ID of an archived
    task. *)
Definition allocates_fresh (sc : state * call) : Prop :=
  match sc.2 with
  | Allocate spec gen_id now kg =>
      match (allocate_task spec gen_id now kg sc.1).1 with
      | Allocated alloc => al_task_id alloc ∉ history_ids sc.1
      | Unallocated _ => True
      end
  | _ => True
  end.

(** Counting by task ID: the allocations that selected the agent and
    whose task ID was later moved to a terminal status by a successful
    [update_task_status]. *)
Definition terminal_update_of (task_id : string) (sc : state * call) : bool :=
  match sc.2 with
  | Update t status _ _ _ =>
      String.eqb task_id t && is_terminal status
      && bool_decide (is_Some (active_tasks sc.1 !! t))
  | _ => false
  end.

Definition allocated_id (c : call) : option string :=
  match c with
  | Allocate spec gen_id _ _ => Some (default gen_id (ts_task_id spec))
  | _ => None
  end.

Fixpoint terminated_by_id (agent_id : string) (tr : list (state * call)) : nat :=
  match tr with
  | [] => 0
  | sc :: tr' =>
      (if selects agent_id sc
          && existsb (terminal_update_of (default "" (allocated_id sc.2))) tr'
       then 1 else 0)
      + terminated_by_id agent_id tr'
  end.

(** Every allocation record the coordinator holds has status
    "allocated". *)
Definition allocations_untouched (s : state) : Prop :=
  (forall t task, active_tasks s !! t = Some task ->
     al_status (t_allocation task) = "allocated")
  /\ (forall h, h ∈ task_history s -> al_status (t_allocation h) = "allocated").

(** Active and archived task IDs are disjoint, and no ID is archived
    twice. *)
Definition archive_ok (s : state) : Prop :=
  (forall t, is_Some (active_tasks s !! t) -> t ∉ history_ids s)
  /\ NoDup (history_ids s).

(** The length of an agent's assigned-task list (0 before the agent is
    registered). *)
Definition load (agent_id : string) (s : state) : nat :=
  match agents_lookup agent_id (registered_agents s) with
  | Some a => length (assigned_tasks a)
  | None => 0
  end.

(** The counter and the rate of an agent (those of a fresh record before
    the agent is registered). *)
Definition record_of (agent_id : string) (s : state) : nat * F :=
  match agents_lookup agent_id (registered_agents s) with
  | Some a => (tasks_completed (performance a), success_rate (performance a))
  | None => (0, lit_1_0)
  end.

(** ** The scoring rule as the specification words it *)

(** Python's [min(x, y)]. *)
Definition fmin (x y : F) : F := if flt y x then y else x.

(** The score with the load factor capped at 1.0. *)
Definition capped_score (required : list string) (a : agent_info) : F :=
  let lf := fmin lit_1_0
              (fdiv (of_int (Z.of_nat (length (assigned_tasks a)))) (of_int 10)) in
  let capability_score :=
    match required with
    | [] => lit_1_0
    | _ :: _ =>
        fdiv (of_int (Z.of_nat (length (List.filter
                                  (fun cap => mem cap (capabilities a)) required))))
             (of_int (Z.of_nat (length required)))
    end in
  fmul (fadd (fmul capability_score lit_0_5)
             (fmul (success_rate (performance a)) lit_0_3))
       (fsub (of_int 1) (fmul lf lit_0_8)).

(** Scores that [<] orders: asymmetric, and with a transitive [>=].  True
    of any list of numbers; a NaN among binary64 scores would break it. *)
Definition comparable (l : list suitable_agent) : Prop :=
  (forall x y, x ∈ l -> y ∈ l ->
     flt (score x) (score y) = true -> flt (score y) (score x) = false)
  /\ (forall x y z, x ∈ l -> y ∈ l -> z ∈ l ->
        flt (score x) (score y) = false -> flt (score y) (score z) = false ->
        flt (score x) (score z) = false).

Definition comparableb (l : list suitable_agent) : bool :=
  forallb (fun x => forallb (fun y =>
    implb (flt (score x) (score y)) (negb (flt (score y) (score x)))
    && forallb (fun z =>
         implb (negb (flt (score x) (score y)) && negb (flt (score y) (score z)))
               (negb (flt (score x) (score z)))) l) l) l.

(** Earlier entries have no smaller score than later ones. *)
Definition descending (l : list suitable_agent) : Prop :=
  StronglySorted (fun x y => flt (score x) (score y) = false) l.

(** ** Example call sequences *)

Definition spec_for (task_id : string) (required : list string) : task_spec :=
  {| ts_task_id := Some task_id;
     ts_task_type := Some "demo";
     ts_required_capabilities := Some required;
     ts_priority := None;
     ts_deadline := None;
     ts_parallel_execution := None;
     ts_parallelism := None |}.

Definition parallel_spec (task_id : string) (required : list string)
  (parallelism : option Z) : task_spec :=
  {| ts_task_id := Some task_id;
     ts_task_type := Some "demo";
     ts_required_capabilities := Some required;
     ts_priority := Some 7%Z;
     ts_deadline := None;
     ts_parallel_execution := Some true;
     ts_parallelism := parallelism |}.

Definition state_after (cs : list call) : state :=
  match run init cs with
  | Returned s => s
  | KeyError _ => init
  end.

(** Agents A1 {nlp} and A2 {nlp, vision}, as in the specification's
    scenarios. *)
Definition two_agents : list call :=
  [ Register "A1" "worker" ["nlp"] None 0%Z None;
    Register "A2" "worker" ["nlp"; "vision"] None 1%Z None ].

(** One agent and one task, under way and then taken to completion. *)
Definition one_task_in_progress : list call :=
  [ Register "A1" "worker" ["nlp"] None 0%Z None;
    Allocate (spec_for "t" ["nlp"]) "task_00000000" 1%Z None;
    Update "t" "in_progress" None None 2%Z ].

Definition one_task_completed : list call :=
  one_task_in_progress ++ [ Update "t" "completed" None (Some "success") 3%Z ].

(** The same task ID submitted again after its task was archived. *)
Definition id_reused_after_archival : list call :=
  one_task_completed ++ [ Allocate (spec_for "t" ["nlp"]) "task_00000001" 4%Z None ].

(** ... and the second task failed. *)
Definition id_archived_twice : list call :=
  id_reused_after_archival ++ [ Update "t" "failed" None None 5%Z ].

(** A task ID submitted twice while active; the second allocation goes to
    the idle agent A2, and the task is then completed. *)
Definition id_reused_while_active : list call :=
  two_agents ++
  [ Allocate (spec_for "t" ["nlp"]) "task_00000000" 2%Z None;
    Allocate (spec_for "t" ["nlp"]) "task_00000001" 3%Z None;
    Update "t" "completed" None None 4%Z ].

(** A1 holds the task "t"; A2 is idle. *)
Definition one_agent_busy : list call :=
  two_agents ++ [ Allocate (spec_for "t" ["nlp"]) "task_00000000" 2%Z None ].

(** [n] tasks allocated one after the other, none of them finished. *)
Definition backlog (n : nat) : list call :=
  (fun i => Allocate (spec_for (pretty i) []) "task_00000000" (Z.of_nat i) None)
    <$> seq 0 n.

(** Tasks "0", "1", ... allocated and settled one at a time with the
    given outcomes. *)
Definition settle_each (os : list bool) : list call :=
  mjoin (imap (fun i (o : bool) =>
                 [ Allocate (spec_for (pretty i) []) "task_00000000"
                            (Z.of_nat i) None;
                   Update (pretty i) (if o then "completed" else "failed")
                          None None (Z.of_nat i + 1)%Z ]) os).

(** ** Well-formed coordinator states *)

(** What the operations maintain: agent IDs are the keys of a dictionary,
    and every active task is stored under the ID of its allocation, names
    each of its agents once, and occupies the assigned-task list of each
    of them. *)
Definition wf (s : state) : Prop :=
  NoDup (fst <$> registered_agents s)
  /\ forall (t : string) (task : task),
       active_tasks s !! t = Some task ->
       al_task_id (t_allocation task) = t
       /\ NoDup (allocated_agents (t_allocation task))
       /\ forall k, k ∈ allocated_agents (t_allocation task) ->
            exists a, agents_lookup k (registered_agents s) = Some a
                      /\ t ∈ assigned_tasks a.

(** ** get_task_status *)

Record unknown_status := {
  us_task_id : string;
  us_status : string;
  us_error : string
}.

Record active_status := {
  as_task_id : string;
  as_status : string;
  as_progress : F;
  as_allocation : allocation;
  as_start_time : Z
}.

(** What [get_task_status] hands back: the "unknown" dictionary, the
    summary of an active task, an archived task record, or [None] when
    the final loop falls through. *)
Inductive task_status :=
| StatusUnknown (u : unknown_status)
| StatusActive (a : active_status)
| StatusArchived (t : task)
| StatusNone.

(** [t["task_id"]] on a task record.  The dictionary that [allocate_task]
    stores and [update_task_status] completes has the keys spec,
    allocation, start_time, status, progress, kg_entity_id, result,
    last_updated, end_time and duration_seconds; the task ID sits inside
    its spec and its allocation, and there is no key "task_id". *)
Definition task_record_task_id (t : task) : outcome string :=
  KeyError "task_id".

(** [any(t["task_id"] == task_id for t in self.task_history)] *)
Fixpoint any_task_id_is (task_id : string) (l : list task) : outcome bool :=
  match l with
  | [] => Returned false
  | t :: l' =>
      try! id := task_record_task_id t in
      (if String.eqb id task_id then Returned true
       else any_task_id_is task_id l')
  end.

(** The loop of lines 322-324. *)
Fixpoint find_in_history (task_id : string) (l : list task) : outcome task_status :=
  match l with
  | [] => Returned StatusNone
  | t :: l' =>
      try! id := task_record_task_id t in
      (if String.eqb id task_id then Returned (StatusArchived t)
       else find_in_history task_id l')
  end.

(** Lines 299-324. *)
Definition get_task_status (task_id : string) (s : state) : outcome task_status :=
  try! not_found :=
    match active_tasks s !! task_id with
    | Some _ => Returned false
    | None =>
        try! found := any_task_id_is task_id (task_history s) in
        Returned (negb found)
    end in
  (if not_found : bool
   then Returned (StatusUnknown {| us_task_id := task_id;
                                   us_status := "unknown";
                                   us_error := "Task not found" |})
   else
     match active_tasks s !! task_id with
     | Some t =>
         Returned (StatusActive {| as_task_id := task_id;
                                   as_status := t_status t;
                                   as_progress := progress t;
                                   as_allocation := t_allocation t;
                                   as_start_time := start_time t |})
     | None => find_in_history task_id (task_history s)
     end).

(** ** get_system_status *)

Record system_status := {
  ss_timestamp : Z;
  ss_agents_total : nat;
  ss_agents_active : nat;
  ss_agents_inactive : Z;
  ss_tasks_active : nat;
  ss_tasks_completed : nat;
  ss_tasks_failed : nat;
  ss_success_rate : F;
  ss_average_task_completion_time : F
}.

(** Lines 428-457 (the coordinator's own ID and the resource
    utilization dictionary, which no operation fills, are left out). *)
Definition get_system_status (now : Z) (s : state) : system_status :=
  let active_agents :=
    length (List.filter (fun ka => String.eqb (a_status ka.2) "active")
                        (registered_agents s)) in
  let completed := m_tasks_completed (metrics s) in
  let failed := m_tasks_failed (metrics s) in
  {| ss_timestamp := now;
     ss_agents_total := length (registered_agents s);
     ss_agents_active := active_agents;
     ss_agents_inactive :=
       (Z.of_nat (length (registered_agents s)) - Z.of_nat active_agents)%Z;
     ss_tasks_active := size (active_tasks s);
     ss_tasks_completed := completed;
     ss_tasks_failed := failed;
     ss_success_rate :=
       if 0 <? completed + failed
       then fdiv (of_int (Z.of_nat completed)) (of_int (Z.of_nat (completed + failed)))
       else lit_1_0;
     ss_average_task_completion_time := average_completion_time (metrics s) |}.

(** No allocation of the sequence is made under the ID of a task that
    is still active. *)
Definition allocates_inactive (sc : state * call) : Prop :=
  match sc.2 with
  | Allocate spec gen_id now kg =>
      match (allocate_task spec gen_id now kg sc.1).1 with
      | Allocated alloc => active_tasks sc.1 !! al_task_id alloc = None
      | Unallocated _ => True
      end
  | _ => True
  end.

(** ** execute_strategic_decision *)

(** What a call of the decision pipeline may raise. *)
Inductive exception :=
| ExnKeyError (key : string)
| ExnValueError.

Inductive completion (A : Type) : Type :=
| Ok (a : A)
| Raise (e : exception).
#[global] Arguments Ok {A} a.
#[global] Arguments Raise {A} e.

(** The float literals 0.6, 0.7 and 0.85 of the placeholder steps: the
    quotient of two small integers is the literal's value, in binary64
    (the division rounds correctly) as in exact arithmetic. *)
Definition lit_0_6 : F := fdiv (of_int 6) (of_int 10).
Definition lit_0_7 : F := fdiv (of_int 7) (of_int 10).
Definition lit_0_85 : F := fdiv (of_int 85) (of_int 100).

Record decision_context := {
  dc_decision_id : option string;
  dc_decision_type : option string;
  dc_objectives : option (list string);
  dc_constraints : option (list string)
}.

Record situation_assessment := {
  situation_type : string;
  complexity : string;
  uncertainty : string;
  time_pressure : string;
  key_factors : list string;
  assessment_timestamp : Z
}.

(** Lines 514-524. *)
Definition _assess_situation (context : decision_context) (now : Z)
  : situation_assessment :=
  {| situation_type := "standard";
     complexity := "medium";
     uncertainty := "low";
     time_pressure := "medium";
     key_factors := ["factor1"; "factor2"];
     assessment_timestamp := now |}.

Record alternative := {
  alt_id : string;
  alt_description : string;
  alt_approach : string
}.

(** Lines 526-534. *)
Definition _generate_alternatives (context : decision_context)
  (assessment : situation_assessment) : list alternative :=
  [ {| alt_id := "alt1"; alt_description := "Alternative 1";
       alt_approach := "conservative" |};
    {| alt_id := "alt2"; alt_description := "Alternative 2";
       alt_approach := "balanced" |};
    {| alt_id := "alt3"; alt_description := "Alternative 3";
       alt_approach := "aggressive" |} ].

Record evaluation := {
  ev_scores : list (string * F);
  constraint_violations : Z;
  overall_score : F
}.

(** [d[k] = v] on a dictionary kept in insertion order: a key already
    present keeps its place. *)
Fixpoint dict_set {V : Type} (k : string) (v : V) (d : list (string * V))
  : list (string * V) :=
  match d with
  | [] => [(k, v)]
  | (j, w) :: d' =>
      if String.eqb k j then (j, v) :: d' else (j, w) :: dict_set k v d'
  end.

(** Lines 536-548. *)
Definition _evaluate_alternatives (alternatives : list alternative)
  (objectives constraints : list string) : list (string * evaluation) :=
  fold_left
    (fun evaluations alt =>
       dict_set (alt_id alt)
         {| ev_scores := [("objective1", lit_0_8); ("objective2", lit_0_6)];
            constraint_violations := 0;
            overall_score := lit_0_7 |}
         evaluations)
    alternatives [].

(** [max(keys, key=...)]: the running maximum is replaced by a later key
    only when that key's value is strictly greater. *)
Fixpoint max_by_overall_score (best : string * evaluation)
  (l : list (string * evaluation)) : string * evaluation :=
  match l with
  | [] => best
  | x :: l' =>
      max_by_overall_score
        (if flt (overall_score best.2) (overall_score x.2) then x else best) l'
  end.

Record selected_action := {
  selected_id : string;
  rationale : string;
  confidence : F;
  selection_time : Z
}.

(** Lines 550-559; [max] of no key raises [ValueError]. *)
Definition _select_action (evaluation : list (string * evaluation)) (now : Z)
  : completion selected_action :=
  match evaluation with
  | [] => Raise ExnValueError
  | x :: l =>
      Ok {| selected_id := (max_by_overall_score x l).1;
            rationale := "Highest overall score";
            confidence := lit_0_85;
            selection_time := now |}
  end.

(** A task of the execution plan: the keys [allocate_task] reads, and the
    description it carries along. *)
Record plan_task := {
  pt_spec : task_spec;
  pt_description : string
}.

Record execution_plan := {
  action_id : string;
  phases : list string;
  plan_tasks : list plan_task;
  dependencies : list (nat * nat * string);
  estimated_duration : Z
}.

Definition plan_task_of (task_id task_type capability : string) (priority : Z)
  (description : string) : plan_task :=
  {| pt_spec := {| ts_task_id := Some task_id;
                   ts_task_type := Some task_type;
                   ts_required_capabilities := Some [capability];
                   ts_priority := Some priority;
                   ts_deadline := None;
                   ts_parallel_execution := None;
                   ts_parallelism := None |};
     pt_description := description |}.

(** Lines 561-595; [id1], [id2] and [id3] are the three task IDs drawn
    from [uuid4]. *)
Definition _create_execution_plan (action : selected_action)
  (id1 id2 id3 : string) : execution_plan :=
  {| action_id := selected_id action;
     phases := ["preparation"; "execution"; "verification"];
     plan_tasks :=
       [ plan_task_of id1 "preparation" "data_analysis" 7
                      "Prepare data for execution";
         plan_task_of id2 "execution" "process_execution" 8
                      "Execute core process";
         plan_task_of id3 "verification" "quality_assurance" 6
                      "Verify execution results" ];
     dependencies := [ (0, 1, "finish_to_start"); (1, 2, "finish_to_start") ];
     estimated_duration := 3600 |}.

(** What the pipeline reads from outside while it runs: the identifiers
    drawn from [uuid4], the clock, and the knowledge graph's answers.
    The clock is read in [_assess_situation] (line 523), in
    [_select_action] (line 558) and, after [_monitor_execution] has
    returned, for the start time of the outcome (line 511).  The readings
    made for the [i]-th task of the plan are indexed by [i]. *)
Record world := {
  w_decision_uuid : string;
  w_plan_uuids : string * string * string;
  w_assessment_time : Z;
  w_selection_time : Z;
  w_start_time : Z;
  w_task_uuid : nat -> string;
  w_allocation_time : nat -> Z;
  w_kg : nat -> option string;
  w_progress_time : nat -> Z;
  w_completion_time : nat -> Z
}.

Record execution_task := {
  et_task_spec : plan_task;
  et_allocation : allocation_result
}.

(** The loop of lines 493-499, from the [i]-th task on. *)
Fixpoint allocate_plan (tasks : list plan_task) (i : nat) (w : world)
  (s : state) : list execution_task * state :=
  match tasks with
  | [] => ([], s)
  | pt :: rest =>
      let r := allocate_task (pt_spec pt) (w_task_uuid w i)
                             (w_allocation_time w i) (w_kg w i) s in
      let rs := allocate_plan rest (S i) w r.2 in
      ({| et_task_spec := pt; et_allocation := r.1 |} :: rs.1, rs.2)
  end.

(** The loop of [monitor_thread] (lines 605-612), from the [i]-th task
    on; a task specification without the key "task_id" raises. *)
Fixpoint monitor_thread (tasks : list execution_task) (i : nat) (w : world)
  (s : state) : outcome state :=
  match tasks with
  | [] => Returned s
  | et :: rest =>
      match ts_task_id (pt_spec (et_task_spec et)) with
      | None => KeyError "task_id"
      | Some task_id =>
          match active_tasks s !! task_id with
          | Some _ =>
              try! r1 := update_task_status task_id "in_progress"
                           (Some (of_int 50)) None (w_progress_time w i) s in
              try! r2 := update_task_status task_id "completed"
                           (Some (of_int 100)) (Some "{'outcome': 'success'}")
                           (w_completion_time w i) r1.2 in
              monitor_thread rest (S i) w r2.2
          | None => monitor_thread rest (S i) w s
          end
      end
  end.

(** Lines 597-616.  The worker is submitted inside a [with] block on the
    executor, whose exit waits for it: when [_monitor_execution] returns,
    [monitor_thread] has run to its end.  An exception of the worker
    stays in a future that nobody reads; [KeyError] here stands for a
    worker that died of it, leaving the coordinator in the middle of an
    update. *)
Definition _monitor_execution (execution_tasks : list execution_task)
  (w : world) (s : state) : outcome state :=
  monitor_thread execution_tasks 0 w s.

Record decision_outcome := {
  decision_id : string;
  d_status : string;
  d_selected_action : selected_action;
  d_execution_plan : execution_plan;
  d_execution_tasks : list execution_task;
  d_start_time : Z
}.

(** Lines 459-512: the returned dictionary, and the coordinator as
    [_monitor_execution] leaves it. *)
Definition execute_strategic_decision (decision_context : decision_context)
  (w : world) (s : state) : completion (decision_outcome * outcome state) :=
  let decision_id := default (w_decision_uuid w) (dc_decision_id decision_context) in
  let objectives := default [] (dc_objectives decision_context) in
  let constraints := default [] (dc_constraints decision_context) in
  let situation_assessment :=
    _assess_situation decision_context (w_assessment_time w) in
  let alternatives := _generate_alternatives decision_context situation_assessment in
  let evaluation := _evaluate_alternatives alternatives objectives constraints in
  match _select_action evaluation (w_selection_time w) with
  | Raise e => Raise e
  | Ok selected_action =>
      let '(id1, id2, id3) := w_plan_uuids w in
      let execution_plan := _create_execution_plan selected_action id1 id2 id3 in
      let allocated := allocate_plan (plan_tasks execution_plan) 0 w s in
      Ok ({| decision_id := decision_id;
             d_status := "in_progress";
             d_selected_action := selected_action;
             d_execution_plan := execution_plan;
             d_execution_tasks := allocated.1;
             d_start_time := w_start_time w |},
          _monitor_execution allocated.1 w allocated.2)
  end.

(** The tasks of [ids] that are active, and how many of them name the
    agent [k] in their allocation. *)
Definition is_active (s : state) (task_id : string) : bool :=
  bool_decide (is_Some (active_tasks s !! task_id)).

Definition names_agent (k : string) (s : state) (task_id : string) : bool :=
  match active_tasks s !! task_id with
  | Some t => mem k (allocated_agents (t_allocation t))
  | None => false
  end.

(** The task ID under which an execution task was allocated, if it
    was. *)
Definition allocated_task_id (et : execution_task) : option string :=
  match et_allocation et with
  | Allocated alloc => Some (al_task_id alloc)
  | Unallocated _ => None
  end.

(** ** Example inputs of the decision pipeline *)

(** An analyst and a runner; nobody offers quality assurance. *)
Definition plan_agents : list call :=
  [ Register "analyst" "worker" ["data_analysis"] None 0%Z None;
    Register "runner" "worker" ["process_execution"; "data_analysis"] None 1%Z None ].

Definition demo_world : world :=
  {| w_decision_uuid := "decision_5f3a9c01";
     w_plan_uuids := ("task_0a1b2c3d", "task_4e5f6a7b", "task_8c9d0e1f");
     w_assessment_time := 8%Z;
     w_selection_time := 9%Z;
     w_start_time := 25000040%Z;
     w_task_uuid := fun _ => "task_ffffffff";
     w_allocation_time := fun i => (11 + Z.of_nat i)%Z;
     w_kg := fun _ => None;
     w_progress_time := fun i => (10000020 + 5000000 * Z.of_nat i)%Z;
     w_completion_time := fun i => (15000020 + 5000000 * Z.of_nat i)%Z |}.

Definition demo_context : decision_context :=
  {| dc_decision_id := None;
     dc_decision_type := None;
     dc_objectives := None;
     dc_constraints := None |}.

(** ** Durations in the history *)

(** The durations recorded in the archived tasks that completed, oldest
    first. *)
Definition completed_durations (h : list task) : list F :=
  omap (fun t => if String.eqb (t_status t) "completed"
                 then duration_seconds t else None) h.

Definition sum_of (l : list F) : F := fold_right fadd (of_int 0) l.

(** The running mean of lines 394-397 replayed over a list of durations,
    from the counter [n] and the average [avg]. *)
Fixpoint replay_mean (ds : list F) (n : nat) (avg : F) : F :=
  match ds with
  | [] => avg
  | d :: ds' =>
      replay_mean ds' (S n)
        (fdiv (fadd (fmul avg (of_int (Z.of_nat (S n) - 1))) d)
              (of_int (Z.of_nat (S n))))
  end.

(** ** Properties *)

(** *** The Python runtime helpers *)

Lemma mem_true (x : string) (l : list string) : mem x l = true <-> x ∈ l.
Proof.
  unfold mem. rewrite existsb_exists. split.
  - intros (y & Hy & Heq). apply String.eqb_eq in Heq. subst y.
    by apply list_elem_of_In.
  - intros Hx. exists x. split; [by apply list_elem_of_In | apply String.eqb_refl].
Qed.

Lemma mem_false (x : string) (l : list string) : mem x l = false <-> x ∉ l.
Proof.
  rewrite <- mem_true. destruct (mem x l); split; congruence.
Qed.

Lemma remove_first_length (x : string) (l : list string) :
  x ∈ l -> S (length (remove_first x l)) = length l.
Proof.
  induction l as [|y l IH]; intros Hx; [by apply not_elem_of_nil in Hx|].
  simpl. destruct (String.eqb_spec x y) as [->|Hne]; [done|].
  simpl. f_equal. apply IH. apply elem_of_cons in Hx as [?|?]; [done|done].
Qed.

Lemma remove_first_other (x y : string) (l : list string) :
  x <> y -> y ∈ l -> y ∈ remove_first x l.
Proof.
  intros Hne. induction l as [|z l IH]; intros Hy; [done|].
  simpl. apply elem_of_cons in Hy as [->|Hy].
  - destruct (String.eqb_spec x z) as [->|_]; [done|]. apply elem_of_cons; by left.
  - destruct (String.eqb_spec x z) as [->|_]; [done|].
    apply elem_of_cons; right; by apply IH.
Qed.

(** *** The registry *)

Lemma agents_lookup_update (k k' : string) (f : agent_info -> agent_info)
  (l : list (string * agent_info)) :
  agents_lookup k (agents_update k' f l)
  = if String.eqb k k' then f <$> agents_lookup k l else agents_lookup k l.
Proof.
  induction l as [|[j a] l IH]; simpl.
  - by destruct (String.eqb k k').
  - destruct (String.eqb_spec k' j) as [->|Hj]; simpl.
    + destruct (String.eqb_spec k j) as [->|Hk]; done.
    + destruct (String.eqb_spec k j) as [->|Hk]; [|apply IH].
      destruct (String.eqb_spec j k'); [congruence|done].
Qed.

Lemma agents_update_keys (k : string) (f : agent_info -> agent_info)
  (l : list (string * agent_info)) :
  fst <$> agents_update k f l = fst <$> l.
Proof.
  induction l as [|[j a] l IH]; [done|]. simpl.
  destruct (String.eqb k j); simpl; [done | by f_equal].
Qed.

Lemma agents_lookup_app (k : string) (l1 l2 : list (string * agent_info)) :
  agents_lookup k (l1 ++ l2)
  = match agents_lookup k l1 with
    | Some a => Some a
    | None => agents_lookup k l2
    end.
Proof.
  induction l1 as [|[j a] l1 IH]; [done|]. simpl.
  by destruct (String.eqb k j).
Qed.

Lemma agents_lookup_None (k : string) (l : list (string * agent_info)) :
  agents_lookup k l = None <-> k ∉ fst <$> l.
Proof.
  induction l as [|[j a] l IH]; simpl.
  - split; [intros _; apply not_elem_of_nil | done].
  - rewrite not_elem_of_cons. destruct (String.eqb_spec k j) as [->|Hk].
    + split; [done | by intros [? _]].
    + rewrite IH. tauto.
Qed.

Lemma agents_lookup_is_Some (k : string) (l : list (string * agent_info)) :
  is_Some (agents_lookup k l) <-> k ∈ fst <$> l.
Proof.
  rewrite <- not_eq_None_Some, agents_lookup_None.
  destruct (decide (k ∈ fst <$> l)); tauto.
Qed.

(** *** Candidate search and sorting *)

Lemma suitable_agents_sublist (required : list string)
  (l : list (string * agent_info)) :
  sa_agent_id <$> suitable_agents required l `sublist_of` fst <$> l.
Proof.
  induction l as [|[k a] l IH]; simpl; [constructor|].
  destruct (eligible required a); simpl; by constructor.
Qed.

Lemma suitable_agents_elem (required : list string)
  (l : list (string * agent_info)) (x : suitable_agent) :
  x ∈ suitable_agents required l <->
  exists k a, (k, a) ∈ l /\ eligible required a = true
              /\ x = score_agent required k a.
Proof.
  induction l as [|[k a] l IH]; simpl.
  - split; [intros Hx; by apply not_elem_of_nil in Hx|].
    intros (k & a & Hin & _). by apply not_elem_of_nil in Hin.
  - destruct (eligible required a) eqn:He.
    + rewrite elem_of_cons, IH. split.
      * intros [->|(k' & a' & Hin & He' & ->)].
        -- exists k, a. split; [apply elem_of_cons; by left|done].
        -- exists k', a'. split; [apply elem_of_cons; by right|done].
      * intros (k' & a' & Hin & He' & ->).
        apply elem_of_cons in Hin as [[= -> ->]|Hin]; [by left|].
        right. by exists k', a'.
    + rewrite IH. split.
      * intros (k' & a' & Hin & He' & ->).
        exists k', a'. split; [apply elem_of_cons; by right|done].
      * intros (k' & a' & Hin & He' & ->).
        apply elem_of_cons in Hin as [[= -> ->]|Hin]; [congruence|].
        by exists k', a'.
Qed.

Lemma eligible_spec (required : list string) (a : agent_info) :
  eligible required a = true <->
  a_status a = "active" /\ required ⊆ capabilities a.
Proof.
  unfold eligible. rewrite andb_true_iff, String.eqb_eq, forallb_forall.
  split; intros [Hs Hc]; (split; [done|]).
  - intros cap Hcap. apply mem_true, Hc. by apply list_elem_of_In.
  - intros cap Hcap. apply mem_true, Hc. by apply list_elem_of_In.
Qed.

Lemma insert_desc_perm (x : suitable_agent) (l : list suitable_agent) :
  insert_desc x l ≡ₚ x :: l.
Proof.
  induction l as [|y l IH]; simpl; [done|].
  destruct (flt (score x) (score y)); [|done].
  rewrite IH. apply Permutation_swap.
Qed.

Lemma sort_desc_perm (l : list suitable_agent) : sort_desc l ≡ₚ l.
Proof.
  induction l as [|x l IH]; simpl; [done|].
  by rewrite insert_desc_perm, IH.
Qed.

Lemma sort_desc_length (l : list suitable_agent) :
  length (sort_desc l) = length l.
Proof. apply Permutation_length, sort_desc_perm. Qed.

Lemma slice_to_sublist {A : Type} (k : Z) (l : list A) :
  slice_to k l `sublist_of` l.
Proof. unfold slice_to. destruct (k <? 0)%Z; apply sublist_take. Qed.

Lemma select_agents_sublist (spec : task_spec) (sorted : list suitable_agent) :
  (select_agents spec sorted).1 `sublist_of` sorted.
Proof.
  unfold select_agents.
  destruct (default false (ts_parallel_execution spec) && (1 <? length sorted));
    simpl; [apply slice_to_sublist | apply sublist_take].
Qed.

(** The agents an allocation names are distinct registered agents. *)
Lemma selection_ids (spec : task_spec) (required : list string)
  (l : list (string * agent_info)) :
  NoDup (fst <$> l) ->
  let ids := sa_agent_id <$>
    (select_agents spec (sort_desc (suitable_agents required l))).1 in
  NoDup ids /\ forall k, k ∈ ids -> k ∈ fst <$> l.
Proof.
  intros Hnd ids.
  assert (Hsorted : sa_agent_id <$> sort_desc (suitable_agents required l)
                    ≡ₚ sa_agent_id <$> suitable_agents required l)
    by (by rewrite sort_desc_perm).
  assert (Hsub : ids `sublist_of` sa_agent_id <$> sort_desc (suitable_agents required l))
    by (apply fmap_sublist, select_agents_sublist).
  split.
  - eapply sublist_NoDup; [|exact Hsub]. rewrite Hsorted.
    eapply sublist_NoDup; [exact Hnd | apply suitable_agents_sublist].
  - intros k Hk.
    eapply elem_of_submseteq; [|apply sublist_submseteq, suitable_agents_sublist].
    rewrite <- Hsorted.
    eapply elem_of_submseteq; [exact Hk | by apply sublist_submseteq].
Qed.

(** *** Assignment and settlement loops *)

Lemma assign_all_lookup (t : string) (now : Z) (sel : list string)
  (l : list (string * agent_info)) (k : string) :
  NoDup sel ->
  agents_lookup k (assign_all t now sel l)
  = if mem k sel then assign t now <$> agents_lookup k l else agents_lookup k l.
Proof.
  unfold assign_all. revert l.
  induction sel as [|x sel IH]; intros l Hnd; [done|].
  apply NoDup_cons in Hnd as [Hx Hnd]. simpl.
  rewrite IH by done. rewrite agents_lookup_update.
  destruct (String.eqb_spec k x) as [->|Hk]; simpl.
  - by rewrite (proj2 (mem_false x sel) Hx).
  - done.
Qed.

Lemma assign_all_keys (t : string) (now : Z) (sel : list string)
  (l : list (string * agent_info)) :
  fst <$> assign_all t now sel l = fst <$> l.
Proof.
  unfold assign_all. revert l.
  induction sel as [|x sel IH]; intros l; [done|].
  simpl. by rewrite IH, agents_update_keys.
Qed.

Lemma settle_all_lookup (t status : string) (ags : list string)
  (l l' : list (string * agent_info)) (k : string) :
  NoDup ags ->
  settle_all t status ags l = Returned l' ->
  agents_lookup k l'
  = if mem k ags then settle t status <$> agents_lookup k l else agents_lookup k l.
Proof.
  revert l. induction ags as [|x ags IH]; intros l Hnd Hret.
  - by injection Hret as ->.
  - apply NoDup_cons in Hnd as [Hx Hnd]. simpl in Hret.
    destruct (agents_lookup x l) as [a|] eqn:Hxl; [|done].
    rewrite (IH _ Hnd Hret), agents_lookup_update. simpl.
    destruct (String.eqb_spec k x) as [->|Hk]; simpl; [|done].
    by rewrite (proj2 (mem_false x ags) Hx).
Qed.

Lemma settle_all_keys (t status : string) (ags : list string)
  (l l' : list (string * agent_info)) :
  settle_all t status ags l = Returned l' -> fst <$> l' = fst <$> l.
Proof.
  revert l. induction ags as [|x ags IH]; intros l Hret.
  - by injection Hret as ->.
  - simpl in Hret. destruct (agents_lookup x l); [|done].
    by rewrite (IH _ Hret), agents_update_keys.
Qed.

Lemma settle_all_returns (t status : string) (ags : list string)
  (l : list (string * agent_info)) :
  (forall k, k ∈ ags -> k ∈ fst <$> l) ->
  exists l', settle_all t status ags l = Returned l'.
Proof.
  revert l. induction ags as [|x ags IH]; intros l Hreg; [by eexists|].
  simpl. destruct (agents_lookup x l) as [a|] eqn:Hx.
  - apply IH. intros k Hk. rewrite agents_update_keys.
    apply Hreg, elem_of_cons; by right.
  - apply agents_lookup_None in Hx. destruct Hx.
    apply Hreg, elem_of_cons; by left.
Qed.

(** *** The two outcomes of allocate_task *)

Lemma allocate_task_none (spec : task_spec) (gen_id : string) (now : Z)
  (kg : option string) (s : state) :
  suitable_agents (default [] (ts_required_capabilities spec))
                  (registered_agents s) = [] ->
  allocate_task spec gen_id now kg s
  = (Unallocated {| u_task_id := default gen_id (ts_task_id spec);
                    u_status := "unallocated";
                    u_reason := "no_suitable_agents";
                    u_timestamp := now |}, s).
Proof. intros Hc. unfold allocate_task. by rewrite Hc. Qed.

Lemma allocate_task_some (spec : task_spec) (gen_id : string) (now : Z)
  (kg : option string) (s : state) :
  let task_id := default gen_id (ts_task_id spec) in
  let candidates := suitable_agents (default [] (ts_required_capabilities spec))
                                    (registered_agents s) in
  let selection := select_agents spec (sort_desc candidates) in
  let alloc := new_allocation task_id selection.2 (sa_agent_id <$> selection.1)
                              now (default 5%Z (ts_priority spec)) in
  candidates <> [] ->
  allocate_task spec gen_id now kg s
  = (Allocated alloc,
     {| registered_agents :=
          assign_all task_id now (sa_agent_id <$> selection.1) (registered_agents s);
        active_tasks := <[task_id := new_task spec alloc now kg]> (active_tasks s);
        task_history := task_history s;
        metrics := metrics s |}).
Proof.
  intros task_id candidates selection alloc Hc. unfold allocate_task.
  fold candidates. destruct candidates; [done|reflexivity].
Qed.

(** *** Well-formedness is maintained, and no call raises *)

Lemma wf_init : wf init.
Proof.
  split; [constructor|]. intros t task Ht. simpl in Ht.
  by rewrite lookup_empty in Ht.
Qed.

Lemma wf_register (agent_id agent_ty : string) (caps : list string)
  (ep : option string) (now : Z) (kg : option string) (s : state) :
  wf s -> wf (register_agent agent_id agent_ty caps ep now kg s).2.
Proof.
  intros [Hnd Hact]. unfold register_agent.
  destruct (agents_lookup agent_id (registered_agents s)) eqn:Hl; [done|].
  split; simpl.
  - rewrite fmap_app. apply NoDup_app. split; [done|]. split.
    + intros k Hk Hk'. apply list_elem_of_singleton in Hk'. simpl in Hk'. subst k.
      by apply agents_lookup_None in Hl.
    + apply NoDup_singleton.
  - intros t task Ht. destruct (Hact t task Ht) as (Hid & Hnd' & Hags).
    split; [done|]. split; [done|]. intros k Hk.
    destruct (Hags k Hk) as (a & Ha & Hin). exists a. split; [|done].
    by rewrite agents_lookup_app, Ha.
Qed.

Lemma wf_allocate (spec : task_spec) (gen_id : string) (now : Z)
  (kg : option string) (s : state) :
  wf s -> wf (allocate_task spec gen_id now kg s).2.
Proof.
  intros [Hnd Hact].
  destruct (suitable_agents (default [] (ts_required_capabilities spec))
                            (registered_agents s)) eqn:Hc.
  { rewrite allocate_task_none by done. by split. }
  rewrite allocate_task_some by (rewrite Hc; done). rewrite Hc.
  set (ids := sa_agent_id <$> _).
  destruct (selection_ids spec (default [] (ts_required_capabilities spec))
              (registered_agents s) Hnd) as [Hids Hreg].
  rewrite Hc in Hids, Hreg. fold ids in Hids, Hreg.
  split; simpl.
  - by rewrite assign_all_keys.
  - intros t task Ht.
    destruct (decide (default gen_id (ts_task_id spec) = t)) as [<-|Hne].
    + rewrite lookup_insert_eq in Ht. injection Ht as <-. simpl.
      split; [done|]. split; [done|]. intros k Hk.
      rewrite assign_all_lookup by done. rewrite (proj2 (mem_true k ids) Hk).
      apply Hreg, agents_lookup_is_Some in Hk as [a Ha]. rewrite Ha. simpl.
      eexists. split; [done|]. simpl. apply elem_of_app. right.
      apply list_elem_of_singleton. done.
    + rewrite lookup_insert_ne in Ht by done.
      destruct (Hact t task Ht) as (Hid & Hnd' & Hags).
      split; [done|]. split; [done|]. intros k Hk.
      destruct (Hags k Hk) as (a & Ha & Hin).
      rewrite assign_all_lookup by done. rewrite Ha.
      destruct (mem k ids); simpl; eexists; (split; [done|]); [|done].
      simpl. apply elem_of_app. by left.
Qed.

Lemma update_task_status_unknown (task_id status : string) (prog : option F)
  (result : option string) (now : Z) (s : state) :
  active_tasks s !! task_id = None ->
  update_task_status task_id status prog result now s = Returned (false, s).
Proof. intros Hl. unfold update_task_status. by rewrite Hl. Qed.

Lemma update_task_status_returns (task_id status : string) (prog : option F)
  (result : option string) (now : Z) (s : state) :
  wf s -> is_Some (active_tasks s !! task_id) ->
  exists s', update_task_status task_id status prog result now s
             = Returned (true, s').
Proof.
  intros [Hnd Hact] [task Ht]. unfold update_task_status. rewrite Ht.
  destruct (is_terminal status); [|by eexists].
  destruct (Hact _ _ Ht) as (_ & _ & Hags).
  destruct (settle_all_returns task_id status
              (allocated_agents (t_allocation task)) (registered_agents s))
    as [l' Hl'].
  { intros k Hk. destruct (Hags k Hk) as (a & Ha & _).
    apply agents_lookup_is_Some. by exists a. }
  rewrite Hl'. simpl. by eexists.
Qed.

Lemma wf_update (task_id status : string) (prog : option F)
  (result : option string) (now : Z) (s s' : state) (b : bool) :
  wf s ->
  update_task_status task_id status prog result now s = Returned (b, s') ->
  wf s'.
Proof.
  intros [Hnd Hact]. unfold update_task_status.
  destruct (active_tasks s !! task_id) as [task|] eqn:Ht;
    [|intros [= <- <-]; by split].
  destruct (Hact _ _ Ht) as (Hid & Hnd0 & Hags0).
  destruct (is_terminal status).
  - destruct (settle_all _ _ _ _) as [l'|] eqn:Hl'; [|done].
    simpl. intros [= <- <-]. split; simpl.
    + by rewrite (settle_all_keys _ _ _ _ _ Hl').
    + intros t task' Ht'. apply lookup_delete_Some in Ht' as [Hne Ht'].
      destruct (Hact _ _ Ht') as (Hid' & Hnd' & Hags').
      split; [done|]. split; [done|]. intros k Hk.
      destruct (Hags' k Hk) as (a & Ha & Hin).
      rewrite (settle_all_lookup _ _ _ _ _ k Hnd0 Hl'), Ha.
      destruct (mem k _); simpl; eexists; (split; [done|]); [|done].
      simpl. destruct (mem task_id (assigned_tasks a)); [|done].
      by apply remove_first_other.
  - intros [= <- <-]. split; simpl; [done|].
    intros t task' Ht'.
    destruct (decide (task_id = t)) as [<-|Hne].
    + rewrite lookup_insert_eq in Ht'. injection Ht' as <-. simpl. by split.
    + rewrite lookup_insert_ne in Ht' by done. by apply Hact.
Qed.

Lemma wf_step (s s' : state) (c : call) :
  wf s -> step s c = Returned s' -> wf s'.
Proof.
  intros Hwf. destruct c; simpl.
  - intros [= <-]. by apply wf_register.
  - intros [= <-]. by apply wf_allocate.
  - destruct (update_task_status _ _ _ _ _ _) as [[b s'']|] eqn:Hu; [|done].
    simpl. intros [= <-]. by eapply wf_update.
Qed.

Lemma step_returns (s : state) (c : call) :
  wf s -> exists s', step s c = Returned s'.
Proof.
  intros Hwf. destruct c; simpl; [by eexists..|].
  destruct (active_tasks s !! task_id) as [task|] eqn:Ht.
  - destruct (update_task_status_returns task_id status prog result now s Hwf)
      as [s' Hs']; [by eexists|].
    rewrite Hs'. by eexists.
  - rewrite update_task_status_unknown by done. by eexists.
Qed.

Lemma wf_run (cs : list call) (s s' : state) :
  wf s -> run s cs = Returned s' -> wf s'.
Proof.
  revert s. induction cs as [|c cs IH]; intros s Hwf; simpl.
  - by intros [= <-].
  - destruct (step s c) as [s1|] eqn:Hs; [|done]. simpl.
    apply IH. by eapply wf_step.
Qed.

(** Every call sequence runs to completion: the [KeyError] of
    [update_task_status] cannot occur. *)
Lemma run_returns (cs : list call) (s : state) :
  wf s -> exists s', run s cs = Returned s'.
Proof.
  revert s. induction cs as [|c cs IH]; intros s Hwf; simpl; [by eexists|].
  destruct (step_returns s c Hwf) as [s1 Hs1]. rewrite Hs1. simpl.
  apply IH. by eapply wf_step.
Qed.

Lemma reachable_wf (s : state) : reachable s -> wf s.
Proof. intros [cs Hcs]. eapply wf_run; [apply wf_init | exact Hcs]. Qed.

(** *** C8: register_agent *)

(** C8.  [register_agent] returns [False] and leaves the coordinator as it
    was when the agent ID is already registered; otherwise it returns
    [True] and appends a record with status "active", no assigned task,
    [tasks_completed = 0], [success_rate = 1.0] and
    [average_response_time = 0], touching nothing else. *)
Theorem register_agent_spec (agent_id agent_ty : string) (caps : list string)
  (ep : option string) (now : Z) (kg : option string) (s : state) :
  (is_Some (agents_lookup agent_id (registered_agents s)) ->
   register_agent agent_id agent_ty caps ep now kg s = (false, s))
  /\ (agents_lookup agent_id (registered_agents s) = None ->
      exists (a : agent_info) (s' : state),
        register_agent agent_id agent_ty caps ep now kg s = (true, s')
        /\ registered_agents s' = registered_agents s ++ [(agent_id, a)]
        /\ agents_lookup agent_id (registered_agents s') = Some a
        /\ a_status a = "active"
        /\ assigned_tasks a = []
        /\ tasks_completed (performance a) = 0
        /\ success_rate (performance a) = lit_1_0
        /\ average_response_time (performance a) = of_int 0
        /\ agent_type a = agent_ty /\ capabilities a = caps
        /\ active_tasks s' = active_tasks s
        /\ task_history s' = task_history s
        /\ metrics s' = metrics s).
Proof.
  unfold register_agent. split.
  - intros [a Ha]. by rewrite Ha.
  - intros Hnone. rewrite Hnone. eexists _, _. split; [reflexivity|]. simpl.
    split; [reflexivity|]. rewrite agents_lookup_app, Hnone. simpl.
    rewrite String.eqb_refl. repeat split; reflexivity.
Qed.

(** *** C6: no suitable agent *)

(** C6.  When the required capabilities are not a subset of the
    capability set of any active registered agent, [allocate_task] returns
    the result with status "unallocated" and reason "no_suitable_agents",
    and the coordinator state (registry, active tasks, history, metrics)
    is the one it started from. *)
Theorem allocate_task_no_suitable_agents (spec : task_spec) (gen_id : string)
  (now : Z) (kg : option string) (s : state) :
  (forall k a, (k, a) ∈ registered_agents s -> a_status a = "active" ->
     ¬ (default [] (ts_required_capabilities spec) ⊆ capabilities a)) ->
  exists u,
    allocate_task spec gen_id now kg s = (Unallocated u, s)
    /\ u_status u = "unallocated"
    /\ u_reason u = "no_suitable_agents"
    /\ u_task_id u = default gen_id (ts_task_id spec).
Proof.
  intros Hnone. eexists. split; [apply allocate_task_none|by simpl].
  destruct (suitable_agents _ _) as [|x l] eqn:Hc; [done|]. exfalso.
  assert (Hx : x ∈ suitable_agents (default [] (ts_required_capabilities spec))
                                   (registered_agents s))
    by (rewrite Hc; apply elem_of_cons; by left).
  apply suitable_agents_elem in Hx as (k & a & Hin & He & _).
  apply eligible_spec in He as [Hact Hsub]. by eapply Hnone.
Qed.

(** *** C7: update_task_status and unknown tasks *)

(** C7.  In every state the coordinator can reach, [update_task_status]
    returns; it returns [True] exactly when the task ID is in the active
    set at the time of the call, and when it returns [False] the state
    (registry, active tasks, history, metrics) is unchanged. *)
Theorem update_task_status_known_iff (task_id status : string)
  (prog : option F) (result : option string) (now : Z) (s : state) :
  reachable s ->
  exists b s',
    update_task_status task_id status prog result now s = Returned (b, s')
    /\ (b = true <-> is_Some (active_tasks s !! task_id))
    /\ (b = false -> s' = s).
Proof.
  intros Hwf%reachable_wf.
  destruct (active_tasks s !! task_id) as [t|] eqn:Ht.
  - destruct (update_task_status_returns task_id status prog result now s Hwf)
      as [s' Hs']; [by eexists|].
    exists true, s'. split; [done|]. split; [|done].
    split; [by eexists|done].
  - exists false, s. split; [by apply update_task_status_unknown|].
    split; [|done]. split; [done|]. by intros [? ?].
Qed.

(** *** C10: default parallelism *)

(** C10.  With [parallel_execution] true, no [parallelism] field and at
    least two eligible agents, [allocate_task] makes a "parallel"
    allocation of exactly two agents: the first two of the candidates
    sorted by score. *)
Theorem allocate_task_default_parallelism (spec : task_spec) (gen_id : string)
  (now : Z) (kg : option string) (s : state) :
  let candidates := suitable_agents (default [] (ts_required_capabilities spec))
                                    (registered_agents s) in
  ts_parallel_execution spec = Some true ->
  ts_parallelism spec = None ->
  2 <= length candidates ->
  exists alloc s',
    allocate_task spec gen_id now kg s = (Allocated alloc, s')
    /\ allocation_type alloc = "parallel"
    /\ allocated_agents alloc = sa_agent_id <$> take 2 (sort_desc candidates)
    /\ length (allocated_agents alloc) = 2.
Proof.
  intros candidates Hpar Hdeg Hlen.
  assert (Hne : candidates <> []) by (intros Hnil; rewrite Hnil in Hlen; simpl in Hlen; lia).
  eexists _, _. split; [by apply allocate_task_some|]. simpl.
  fold candidates. unfold select_agents. rewrite Hpar, Hdeg. simpl.
  rewrite sort_desc_length.
  destruct (Nat.ltb_spec 1 (length candidates)) as [_|?]; [|lia]. simpl.
  unfold slice_to.
  destruct (Z.ltb_spec (2 `min` Z.of_nat (length candidates)) 0) as [?|_]; [lia|].
  replace (Z.to_nat (2 `min` Z.of_nat (length candidates))) with 2 by lia.
  split; [done|]. split; [done|].
  rewrite length_fmap, length_take, sort_desc_length. lia.
Qed.

(** *** C5: the allocation strategy *)

Lemma comparable_subseteq (l1 l2 : list suitable_agent) :
  l1 ⊆ l2 -> comparable l2 -> comparable l1.
Proof.
  intros Hsub [Hasym Htrans]. split.
  - intros x y Hx Hy. apply Hasym; by apply Hsub.
  - intros x y z Hx Hy Hz. apply Htrans; by apply Hsub.
Qed.

Lemma comparable_irrefl (l : list suitable_agent) (x : suitable_agent) :
  comparable l -> x ∈ l -> flt (score x) (score x) = false.
Proof.
  intros [Hasym _] Hx. destruct (flt (score x) (score x)) eqn:Hxx; [|done].
  by rewrite (Hasym x x Hx Hx Hxx) in Hxx.
Qed.

Lemma comparableb_sound (l : list suitable_agent) :
  comparableb l = true -> comparable l.
Proof.
  unfold comparableb. rewrite forallb_forall. intros Hall. split.
  - intros x y Hx%list_elem_of_In Hy%list_elem_of_In Hlt.
    specialize (Hall x Hx). rewrite forallb_forall in Hall.
    specialize (Hall y Hy). apply andb_true_iff in Hall as [Hall _].
    rewrite Hlt in Hall. simpl in Hall. by apply negb_true_iff.
  - intros x y z Hx%list_elem_of_In Hy%list_elem_of_In Hz%list_elem_of_In Hxy Hyz.
    specialize (Hall x Hx). rewrite forallb_forall in Hall.
    specialize (Hall y Hy). apply andb_true_iff in Hall as [_ Hall].
    rewrite forallb_forall in Hall. specialize (Hall z Hz).
    rewrite Hxy, Hyz in Hall. simpl in Hall. by apply negb_true_iff.
Qed.

Lemma insert_desc_descending (x : suitable_agent) (l : list suitable_agent) :
  comparable (x :: l) -> descending l -> descending (insert_desc x l).
Proof.
  unfold descending. induction l as [|y l IH]; intros Hcmp Hl; simpl.
  - by repeat constructor.
  - apply StronglySorted_inv in Hl as [Hl Hy].
    assert (Hx' : x ∈ x :: y :: l) by (apply elem_of_cons; by left).
    assert (Hy' : y ∈ x :: y :: l) by (apply elem_of_cons; right; apply elem_of_cons; by left).
    destruct (flt (score x) (score y)) eqn:Hxy.
    + constructor.
      * apply IH; [|done]. eapply comparable_subseteq; [|exact Hcmp].
        intros z Hz. apply elem_of_cons in Hz as [->|Hz]; [done|].
        apply elem_of_cons; right; apply elem_of_cons; by right.
      * rewrite insert_desc_perm. constructor; [|done].
        by apply (proj1 Hcmp).
    + constructor; [by constructor|]. constructor; [done|].
      apply Forall_forall. intros z Hz.
      assert (Hz' : z ∈ x :: y :: l)
        by (apply elem_of_cons; right; apply elem_of_cons; by right).
      apply (proj2 Hcmp x y z); try done.
      by apply (proj1 (Forall_forall _ _) Hy).
Qed.

Lemma sort_desc_descending (l : list suitable_agent) :
  comparable l -> descending (sort_desc l).
Proof.
  induction l as [|x l IH]; intros Hcmp; simpl; [constructor|].
  apply insert_desc_descending.
  - eapply comparable_subseteq; [|exact Hcmp].
    intros z Hz. by rewrite <- (sort_desc_perm l).
  - apply IH. eapply comparable_subseteq; [|exact Hcmp].
    intros z Hz. apply elem_of_cons; by right.
Qed.

(** C5, as the code has it.  With at least one eligible agent whose
    scores [<] orders, [allocate_task] ranks the candidates by descending
    score.  If [parallel_execution] is true, more than one agent is
    eligible and the parallelism (2 when absent) is not negative, it
    selects the top [min(parallelism, eligibleCount)] of them and the
    allocation type is "parallel".  If [parallel_execution] is false or
    one agent only is eligible, it selects exactly the top-scoring agent
    and the type is "single". *)
Theorem allocate_task_strategy (spec : task_spec) (gen_id : string)
  (now : Z) (kg : option string) (s : state) :
  let candidates := suitable_agents (default [] (ts_required_capabilities spec))
                                    (registered_agents s) in
  let n := length candidates in
  let parallel := default false (ts_parallel_execution spec) in
  let parallelism := default 2%Z (ts_parallelism spec) in
  candidates <> [] ->
  comparable candidates ->
  exists sorted alloc s',
    allocate_task spec gen_id now kg s = (Allocated alloc, s')
    /\ sorted ≡ₚ candidates
    /\ descending sorted
    /\ (parallel = true -> 1 < n -> (0 <= parallelism)%Z ->
        allocation_type alloc = "parallel"
        /\ allocated_agents alloc
           = sa_agent_id <$> take (Z.to_nat (parallelism `min` Z.of_nat n)) sorted)
    /\ (parallel = false \/ n <= 1 ->
        allocation_type alloc = "single"
        /\ exists top, head sorted = Some top
             /\ allocated_agents alloc = [sa_agent_id top]
             /\ forall x, x ∈ candidates -> flt (score top) (score x) = false).
Proof.
  intros candidates n parallel parallelism Hne Hcmp.
  exists (sort_desc candidates). eexists _, _.
  split; [by apply allocate_task_some|].
  split; [apply sort_desc_perm|].
  pose proof (sort_desc_descending candidates Hcmp) as Hdesc.
  split; [done|]. simpl. fold candidates. unfold select_agents.
  rewrite sort_desc_length. fold n parallel parallelism. split.
  - intros -> Hn Hp. destruct (Nat.ltb_spec 1 n) as [_|?]; [|lia]. simpl.
    split; [done|]. unfold slice_to.
    destruct (Z.ltb_spec (parallelism `min` Z.of_nat n) 0) as [?|_]; [lia|done].
  - intros Hsingle.
    assert (Hb : parallel && (1 <? n) = false).
    { destruct Hsingle as [->|Hn]; [done|].
      destruct (Nat.ltb_spec 1 n); [lia|]. by rewrite andb_false_r. }
    rewrite Hb. simpl. split; [done|].
    destruct (sort_desc candidates) as [|top rest] eqn:Hs.
    { destruct Hne. apply Permutation_nil_r. rewrite <- Hs. symmetry. apply sort_desc_perm. }
    exists top. split; [done|]. split; [done|].
    intros x Hx. rewrite <- (sort_desc_perm candidates), Hs in Hx.
    apply StronglySorted_inv in Hdesc as [_ Htop].
    apply elem_of_cons in Hx as [->|Hx].
    + apply (comparable_irrefl candidates); [done|].
      rewrite <- (sort_desc_perm candidates), Hs. apply elem_of_cons; by left.
    + by apply (proj1 (Forall_forall _ _) Htop).
Qed.

(** *** C9: allocation records *)

Lemma allocations_untouched_step (s s' : state) (c : call) :
  allocations_untouched s -> step s c = Returned s' -> allocations_untouched s'.
Proof.
  intros [Hact Hhist]. destruct c; simpl.
  - intros [= <-]. unfold register_agent.
    destruct (agents_lookup _ _); by split.
  - intros [= <-]. unfold allocate_task.
    destruct (suitable_agents _ _); [by split|]. split; simpl; [|done].
    intros t task Ht. apply lookup_insert_Some in Ht as [[_ <-]|[_ Ht]]; [done|].
    by eapply Hact.
  - unfold update_task_status.
    destruct (active_tasks s !! task_id) as [task|] eqn:Ht;
      [|intros [= <-]; by split].
    destruct (is_terminal status).
    + destruct (settle_all _ _ _ _); [|done]. simpl. intros [= <-].
      split; simpl.
      * intros t task' Ht'. apply lookup_delete_Some in Ht' as [_ Ht'].
        by eapply Hact.
      * intros h Hh. apply elem_of_app in Hh as [Hh|Hh]; [by apply Hhist|].
        apply list_elem_of_singleton in Hh as ->. simpl. by eapply Hact.
    + simpl. intros [= <-]. split; simpl; [|done].
      intros t task' Ht'.
      apply lookup_insert_Some in Ht' as [[_ <-]|[_ Ht']]; simpl;
        by eapply Hact.
Qed.

Lemma allocations_untouched_run (cs : list call) (s s' : state) :
  allocations_untouched s -> run s cs = Returned s' -> allocations_untouched s'.
Proof.
  revert s. induction cs as [|c cs IH]; intros s Hs; simpl.
  - by intros [= <-].
  - destruct (step s c) as [s1|] eqn:Hs1; [|done]. simpl.
    apply IH. by eapply allocations_untouched_step.
Qed.

(** C9, as the code has it.  No field of an allocation record is ever
    modified after [allocate_task] created it, the status field
    included: in every reachable state each allocation record, active or
    archived, still has status "allocated".  A call leaves archived
    records as they are, and an active task's record keeps its allocation
    (in the active set, or as the record appended to the history) unless
    the call is an allocation under the same task ID, which replaces the
    task.  [update_task_status] writes the new status to the task record
    only. *)
Theorem allocation_record_never_modified (s : state) :
  reachable s ->
  allocations_untouched s
  /\ forall (c : call) (s' : state),
       step s c = Returned s' ->
       (exists new, task_history s' = task_history s ++ new)
       /\ forall t task,
            active_tasks s !! t = Some task ->
            allocated_id c <> Some t ->
            exists task',
              (active_tasks s' !! t = Some task'
               \/ task_history s' = task_history s ++ [task'])
              /\ t_allocation task' = t_allocation task
              /\ al_status (t_allocation task') = "allocated"
              /\ forall status prog result now,
                   c = Update t status prog result now ->
                   t_status task' = status.
Proof.
  intros Hreach. assert (Hun : allocations_untouched s).
  { destruct Hreach as [cs Hcs]. eapply allocations_untouched_run; [|exact Hcs].
    split; [intros t task Ht; simpl in Ht; by rewrite lookup_empty in Ht|].
    intros h Hh. by apply not_elem_of_nil in Hh. }
  split; [done|]. intros c s' Hstep. destruct c; simpl in Hstep.
  - injection Hstep as <-. unfold register_agent.
    destruct (agents_lookup _ _); simpl.
    + split; [exists []; by rewrite app_nil_r|]. intros t task Ht _.
      exists task. split; [by left|]. split; [done|].
      split; [by eapply (proj1 Hun)|done].
    + split; [exists []; by rewrite app_nil_r|]. intros t task Ht _.
      exists task. split; [by left|]. split; [done|].
      split; [by eapply (proj1 Hun)|done].
  - injection Hstep as <-. unfold allocate_task.
    destruct (suitable_agents _ _); simpl.
    + split; [exists []; by rewrite app_nil_r|]. intros t task Ht _.
      exists task. split; [by left|]. split; [done|].
      split; [by eapply (proj1 Hun)|done].
    + split; [exists []; by rewrite app_nil_r|]. intros t task Ht Hid.
      exists task. split; [left; rewrite lookup_insert_ne; [done|congruence]|].
      split; [done|]. split; [by eapply (proj1 Hun)|done].
  - unfold update_task_status in Hstep.
    destruct (active_tasks s !! task_id) as [task0|] eqn:Ht0.
    + destruct (is_terminal status).
      * destruct (settle_all _ _ _ _); [|done]. simpl in Hstep.
        injection Hstep as <-. simpl. split; [by eexists|].
        intros t task Ht _. destruct (decide (task_id = t)) as [->|Hne].
        -- eexists. split; [by right|]. simpl.
           assert (task0 = task) as -> by congruence.
           split; [done|]. split; [by eapply (proj1 Hun)|].
           by intros ? ? ? ? [= ->].
        -- exists task. split; [left; by rewrite lookup_delete_ne|].
           split; [done|]. split; [by eapply (proj1 Hun)|].
           intros ? ? ? ? [= ? ?]. congruence.
      * simpl in Hstep. injection Hstep as <-. simpl.
        split; [exists []; by rewrite app_nil_r|].
        intros t task Ht _. destruct (decide (task_id = t)) as [->|Hne].
        -- eexists. split; [left; by rewrite lookup_insert_eq|]. simpl.
           assert (task0 = task) as -> by congruence.
           split; [done|]. split; [by eapply (proj1 Hun)|].
           by intros ? ? ? ? [= ->].
        -- exists task. split; [left; by rewrite lookup_insert_ne|].
           split; [done|]. split; [by eapply (proj1 Hun)|].
           intros ? ? ? ? [= ? ?]. congruence.
    + simpl in Hstep. injection Hstep as <-.
      split; [exists []; by rewrite app_nil_r|]. intros t task Ht _.
      exists task. split; [by left|]. split; [done|].
      split; [by eapply (proj1 Hun)|]. intros ? ? ? ? [= -> ? ? ? ?].
      congruence.
Qed.

(** *** C2: active set and history *)

Lemma archive_ok_step (s s' : state) (c : call) :
  wf s -> archive_ok s -> allocates_fresh (s, c) ->
  step s c = Returned s' -> archive_ok s'.
Proof.
  intros [_ Hwf] [Hdis Hnd] Hfresh. destruct c; simpl.
  - intros [= <-]. unfold register_agent.
    destruct (agents_lookup _ _); by split.
  - intros [= <-]. unfold allocates_fresh in Hfresh. simpl in Hfresh.
    unfold allocate_task in *.
    destruct (suitable_agents _ _); [by split|]. simpl in *.
    split; [|done]. unfold history_ids. simpl. intros t Ht.
    destruct (decide (default gen_id (ts_task_id spec) = t)) as [<-|Hne]; [done|].
    rewrite lookup_insert_ne in Ht by done. by apply Hdis.
  - unfold update_task_status.
    destruct (active_tasks s !! task_id) as [task|] eqn:Ht;
      [|intros [= <-]; by split].
    destruct (Hwf _ _ Ht) as (Hid & _ & _).
    destruct (is_terminal status).
    + destruct (settle_all _ _ _ _); [|done]. simpl. intros [= <-].
      unfold archive_ok, history_ids. simpl. rewrite fmap_app. simpl.
      rewrite Hid. fold (history_ids s). split.
      * intros t Hs%lookup_delete_is_Some. destruct Hs as [Hne Hs].
        apply not_elem_of_app. split; [by apply Hdis|].
        intros ->%list_elem_of_singleton. done.
      * apply NoDup_app. split; [done|]. split; [|apply NoDup_singleton].
        intros t Hin ->%list_elem_of_singleton.
        by apply (Hdis task_id).
    + simpl. intros [= <-]. split; [|done]. unfold history_ids. simpl.
      intros t Hs. apply Hdis.
      destruct (decide (task_id = t)) as [<-|Hne]; [by eexists|].
      by rewrite lookup_insert_ne in Hs.
Qed.

Lemma archive_ok_run (cs : list call) (s s' : state) :
  wf s -> archive_ok s -> Forall allocates_fresh (trace s cs) ->
  run s cs = Returned s' -> archive_ok s'.
Proof.
  revert s. induction cs as [|c cs IH]; intros s Hwf Hok Hfresh; simpl.
  - by intros [= <-].
  - simpl in Hfresh. apply Forall_cons in Hfresh as [Hc Hfresh].
    destruct (step s c) as [s1|] eqn:Hs1; [|done]. simpl.
    apply IH; [by eapply wf_step | by eapply archive_ok_step | done].
Qed.

(** C2, as the code has it.  In every state reached from the initial
    state by [register_agent], [allocate_task] and [update_task_status]
    calls in which no allocation is made under the ID of an archived
    task, no task ID is both in the active set and in the history, and no
    task ID occurs twice in the history. *)
Theorem active_and_history_disjoint (cs : list call) (s : state) :
  run init cs = Returned s ->
  Forall allocates_fresh (trace init cs) ->
  (forall t, is_Some (active_tasks s !! t) -> t ∉ history_ids s)
  /\ NoDup (history_ids s).
Proof.
  intros Hrun Hfresh.
  eapply (archive_ok_run cs init s); [apply wf_init | | done | done].
  split; [|constructor]. intros t _. apply not_elem_of_nil.
Qed.

(** *** C4: load accounting *)

Lemma load_step (agent_id : string) (s s' : state) (c : call) :
  wf s -> step s c = Returned s' ->
  load agent_id s' + (match settles agent_id (s, c) with Some _ => 1 | None => 0 end)
  = load agent_id s + (if selects agent_id (s, c) then 1 else 0).
Proof.
  intros [Hnd Hwf]. unfold load, settles, selects. destruct c; simpl.
  - intros [= <-]. unfold register_agent.
    destruct (agents_lookup agent_id0 _) eqn:Hl; [done|]. simpl.
    rewrite agents_lookup_app. simpl.
    destruct (agents_lookup agent_id _); [done|].
    by destruct (String.eqb agent_id agent_id0).
  - intros [= <-].
    destruct (suitable_agents (default [] (ts_required_capabilities spec))
                              (registered_agents s)) eqn:Hc.
    { rewrite allocate_task_none by done. simpl. lia. }
    rewrite allocate_task_some by (rewrite Hc; done). rewrite Hc. simpl.
    destruct (selection_ids spec (default [] (ts_required_capabilities spec))
                (registered_agents s) Hnd) as [Hids Hreg].
    rewrite Hc in Hids, Hreg. rewrite assign_all_lookup by done.
    destruct (mem agent_id _) eqn:Hm; [|lia].
    apply mem_true, Hreg, agents_lookup_is_Some in Hm as [a Ha].
    rewrite Ha. simpl. rewrite length_app. simpl. lia.
  - unfold update_task_status.
    destruct (active_tasks s !! task_id) as [task|] eqn:Ht;
      [|intros [= <-]; lia].
    destruct (Hwf _ _ Ht) as (_ & Hndt & Hags).
    destruct (is_terminal status); simpl; [|intros [= <-]; simpl; lia].
    destruct (settle_all _ _ _ _) as [l'|] eqn:Hl'; [|done]. simpl.
    intros [= <-]. simpl.
    rewrite (settle_all_lookup _ _ _ _ _ agent_id Hndt Hl').
    destruct (mem agent_id _) eqn:Hm; [|lia].
    apply mem_true, Hags in Hm as (a & Ha & Hin). rewrite Ha. simpl.
    rewrite (proj2 (mem_true _ _) Hin).
    pose proof (remove_first_length _ _ Hin). lia.
Qed.

Lemma load_run (agent_id : string) (cs : list call) (s s' : state) :
  wf s -> run s cs = Returned s' ->
  load agent_id s' + terminal_transitions agent_id s cs
  = load agent_id s + allocations agent_id s cs.
Proof.
  unfold terminal_transitions, outcomes, allocations.
  revert s. induction cs as [|c cs IH]; intros s Hwf; simpl.
  - intros [= <-]. lia.
  - destruct (step s c) as [s1|] eqn:Hs1; [|done]. simpl. intros Hrun.
    pose proof (load_step agent_id s s1 c Hwf Hs1) as Hstep.
    pose proof (IH s1 (wf_step _ _ _ Hwf Hs1) Hrun) as Hrest.
    change (list_omap _ _ ?f ?l) with (omap f l).
    destruct (settles agent_id (s, c)); destruct (selects agent_id (s, c));
      simpl; lia.
Qed.

(** C4, as the code has it.  After any sequence of calls, with any task
    IDs, the length of an agent's assigned-task list plus the number of
    terminal transitions ("completed" or "failed") applied to active
    tasks allocated to the agent equals the number of allocations that
    selected the agent.  A task whose record was replaced by a later
    allocation under the same ID has no terminal transition of its own:
    its ID stays in the lists of its agents. *)
Theorem assigned_tasks_accounting (cs : list call) (s : state)
  (agent_id : string) (a : agent_info) :
  run init cs = Returned s ->
  agents_lookup agent_id (registered_agents s) = Some a ->
  length (assigned_tasks a) + terminal_transitions agent_id init cs
  = allocations agent_id init cs.
Proof.
  intros Hrun Ha.
  pose proof (load_run agent_id cs init s wf_init Hrun) as Hload.
  unfold load in Hload. rewrite Ha in Hload. simpl in Hload. lia.
Qed.

(** *** C3: the success rate *)

Lemma new_success_rate_outcome (status : string) (n : nat) (r : F) :
  new_success_rate (if String.eqb status "completed" then "completed" else "failed") n r
  = new_success_rate status n r.
Proof.
  unfold new_success_rate. by destruct (String.eqb status "completed").
Qed.

Lemma record_of_step (agent_id : string) (s s' : state) (c : call) :
  wf s -> step s c = Returned s' ->
  record_of agent_id s'
  = match settles agent_id (s, c) with
    | Some o =>
        (S (record_of agent_id s).1,
         new_success_rate (if o then "completed" else "failed")
           (S (record_of agent_id s).1) (record_of agent_id s).2)
    | None => record_of agent_id s
    end.
Proof.
  intros [Hnd Hwf]. unfold record_of, settles. destruct c; simpl.
  - intros [= <-]. unfold register_agent.
    destruct (agents_lookup agent_id0 _) eqn:Hl; [done|]. simpl.
    rewrite agents_lookup_app. simpl.
    destruct (agents_lookup agent_id _); [done|].
    by destruct (String.eqb agent_id agent_id0).
  - intros [= <-].
    destruct (suitable_agents (default [] (ts_required_capabilities spec))
                              (registered_agents s)) eqn:Hc.
    { by rewrite allocate_task_none. }
    rewrite allocate_task_some by (rewrite Hc; done). rewrite Hc. simpl.
    destruct (selection_ids spec (default [] (ts_required_capabilities spec))
                (registered_agents s) Hnd) as [Hids Hreg].
    rewrite Hc in Hids, Hreg. rewrite assign_all_lookup by done.
    destruct (mem agent_id _); [|done].
    by destruct (agents_lookup agent_id _).
  - unfold update_task_status.
    destruct (active_tasks s !! task_id) as [task|] eqn:Ht;
      [|by intros [= <-]].
    destruct (Hwf _ _ Ht) as (_ & Hndt & Hags).
    destruct (is_terminal status); simpl; [|by intros [= <-]].
    destruct (settle_all _ _ _ _) as [l'|] eqn:Hl'; [|done]. simpl.
    intros [= <-]. simpl.
    rewrite (settle_all_lookup _ _ _ _ _ agent_id Hndt Hl').
    destruct (mem agent_id _) eqn:Hm; [|done].
    apply mem_true, Hags in Hm as (a & Ha & Hin). rewrite Ha. simpl.
    by rewrite new_success_rate_outcome.
Qed.

(** The rate of an agent is the running average replayed over the
    outcomes of its terminal transitions, in the arithmetic at hand. *)
Lemma record_of_run (agent_id : string) (cs : list call) (s s' : state) :
  wf s -> run s cs = Returned s' ->
  record_of agent_id s'
  = ((record_of agent_id s).1 + length (outcomes agent_id s cs),
     replay_rate (outcomes agent_id s cs)
                 (record_of agent_id s).1 (record_of agent_id s).2).
Proof.
  unfold outcomes.
  revert s. induction cs as [|c cs IH]; intros s Hwf; simpl.
  - intros [= <-]. rewrite Nat.add_0_r. by destruct (record_of agent_id s).
  - destruct (step s c) as [s1|] eqn:Hs1; [|done]. simpl. intros Hrun.
    rewrite (IH s1 (wf_step _ _ _ Hwf Hs1) Hrun).
    rewrite (record_of_step agent_id s s1 c Hwf Hs1).
    change (list_omap _ _ ?f ?l) with (omap f l).
    destruct (settles agent_id (s, c)) as [o|]; simpl; [|done].
    f_equal. lia.
Qed.

(** *** Further properties of the state machine *)

(** X1.  No sequence of [register_agent], [allocate_task] and
    [update_task_status] calls raises: the registry lookup in the
    settlement loop of [update_task_status] always finds its agent. *)
Theorem calls_never_raise (cs : list call) :
  exists s, run init cs = Returned s.
Proof. apply run_returns, wf_init. Qed.

(** X2.  With no required capability, the candidates of an allocation
    are the active agents, whatever their capabilities, in registry
    order. *)
Theorem empty_requirement_matches_active_agents
  (l : list (string * agent_info)) :
  sa_agent_id <$> suitable_agents [] l
  = fst <$> List.filter (fun ka => String.eqb (a_status ka.2) "active") l.
Proof.
  induction l as [|[k a] l IH]; [done|]. simpl. unfold eligible. simpl.
  rewrite andb_true_r. destruct (String.eqb (a_status a) "active"); simpl;
    [f_equal|]; exact IH.
Qed.

Lemma archived_counts_step (s s' : state) (c : call) :
  m_tasks_completed (metrics s) + m_tasks_failed (metrics s)
    = length (task_history s) ->
  step s c = Returned s' ->
  m_tasks_completed (metrics s') + m_tasks_failed (metrics s')
    = length (task_history s').
Proof.
  intros Hs. destruct c; simpl.
  - intros [= <-]. unfold register_agent. by destruct (agents_lookup _ _).
  - intros [= <-]. unfold allocate_task. by destruct (suitable_agents _ _).
  - unfold update_task_status.
    destruct (active_tasks s !! task_id); [|by intros [= <-]].
    destruct (is_terminal status); [|by intros [= <-]].
    destruct (settle_all _ _ _ _); [|done]. simpl. intros [= <-]. simpl.
    rewrite length_app. unfold update_metrics.
    destruct (String.eqb status "completed"); simpl; lia.
Qed.

(** X3.  In every reachable state the system counters [tasks_completed]
    and [tasks_failed] add up to the number of archived tasks. *)
Theorem counters_match_history (s : state) :
  reachable s ->
  m_tasks_completed (metrics s) + m_tasks_failed (metrics s)
  = length (task_history s).
Proof.
  intros [cs Hcs]. revert Hcs.
  assert (Hinit : m_tasks_completed (metrics init) + m_tasks_failed (metrics init)
                  = length (task_history init)) by done.
  revert Hinit. generalize init.
  induction cs as [|c cs IH]; intros s0 Hs0; simpl.
  - by intros [= <-].
  - destruct (step s0 c) as [s1|] eqn:Hs1; [|done]. simpl.
    apply IH. by eapply archived_counts_step.
Qed.

(** *** Reading a task's status back *)

(** X4.  A task that [allocate_task] has just allocated is active under
    the task ID of the returned allocation, and reads back from
    [get_task_status] with status "allocated", progress 0.0, the
    allocation record that was returned, and the start time stored with
    the task. *)
Theorem get_task_status_after_allocate (spec : task_spec) (gen_id : string)
  (now : Z) (kg : option string) (s s' : state) (alloc : allocation) :
  allocate_task spec gen_id now kg s = (Allocated alloc, s') ->
  exists t,
    active_tasks s' !! al_task_id alloc = Some t
    /\ t_spec t = spec
    /\ get_task_status (al_task_id alloc) s'
       = Returned (StatusActive {| as_task_id := al_task_id alloc;
                                   as_status := "allocated";
                                   as_progress := lit_0_0;
                                   as_allocation := alloc;
                                   as_start_time := start_time t |}).
Proof.
  unfold allocate_task. destruct (suitable_agents _ _); [done|].
  intros [= <- <-]. unfold get_task_status. simpl.
  rewrite lookup_insert_eq. by eexists.
Qed.

(** X5.  After [update_task_status] has set a status other than
    "completed" and "failed", [get_task_status] reports that status, the
    progress supplied with it (the earlier progress when none was), and
    the allocation and start time the task had. *)
Theorem get_task_status_after_update (task_id status : string)
  (prog : option F) (result : option string) (now : Z) (s s' : state) :
  update_task_status task_id status prog result now s = Returned (true, s') ->
  is_terminal status = false ->
  exists t,
    active_tasks s !! task_id = Some t
    /\ get_task_status task_id s'
       = Returned (StatusActive {| as_task_id := task_id;
                                   as_status := status;
                                   as_progress := default (progress t) prog;
                                   as_allocation := t_allocation t;
                                   as_start_time := start_time t |}).
Proof.
  unfold update_task_status.
  destruct (active_tasks s !! task_id) as [t|] eqn:Ht; [|done].
  intros Hup Hterm. rewrite Hterm in Hup. injection Hup as <-.
  exists t. split; [done|]. unfold get_task_status. simpl.
  by rewrite lookup_insert_eq.
Qed.

Lemma get_task_status_not_active (task_id : string) (s : state) :
  active_tasks s !! task_id = None ->
  get_task_status task_id s
  = match task_history s with
    | [] => Returned (StatusUnknown {| us_task_id := task_id;
                                       us_status := "unknown";
                                       us_error := "Task not found" |})
    | _ :: _ => KeyError "task_id"
    end.
Proof.
  intros Ht. unfold get_task_status. rewrite Ht.
  by destruct (task_history s).
Qed.

(** X6.  Once [update_task_status] has moved a task to "completed" or
    "failed", the task can no longer be read: [get_task_status] raises
    [KeyError('task_id')] for it, and for every other task ID that is not
    active, because the archived records it scans have no "task_id"
    key. *)
Theorem get_task_status_after_archival (task_id status : string)
  (prog : option F) (result : option string) (now : Z) (s s' : state) :
  update_task_status task_id status prog result now s = Returned (true, s') ->
  is_terminal status = true ->
  get_task_status task_id s' = KeyError "task_id"
  /\ forall t, active_tasks s' !! t = None ->
               get_task_status t s' = KeyError "task_id".
Proof.
  unfold update_task_status.
  destruct (active_tasks s !! task_id) as [t0|] eqn:Ht; [|done].
  intros Hup Hterm. rewrite Hterm in Hup.
  destruct (settle_all _ _ _ _); [|done]. simpl in Hup. injection Hup as <-.
  assert (Hall : forall (s1 : state) t,
             task_history s1 <> [] -> active_tasks s1 !! t = None ->
             get_task_status t s1 = KeyError "task_id").
  { intros s1 t Hh Hnone. rewrite get_task_status_not_active by done.
    by destruct (task_history s1). }
  split.
  - apply Hall; simpl; [by destruct (task_history s) | apply lookup_delete_eq].
  - intros t Hnone. apply Hall; [simpl; by destruct (task_history s) | done].
Qed.

(** *** The system status *)

Lemma agents_update_Forall (P : agent_info -> Prop) (k : string)
  (f : agent_info -> agent_info) (l : list (string * agent_info)) :
  (forall a, P a -> P (f a)) ->
  Forall (fun ka => P ka.2) l -> Forall (fun ka => P ka.2) (agents_update k f l).
Proof.
  intros Hf. induction l as [|[j a] l IH]; intros Hl; [done|].
  apply Forall_cons in Hl as [Ha Hl]. simpl.
  destruct (String.eqb k j); constructor; simpl; auto.
Qed.

Lemma assign_all_Forall (P : agent_info -> Prop) (t : string) (now : Z)
  (sel : list string) (l : list (string * agent_info)) :
  (forall a, P a -> P (assign t now a)) ->
  Forall (fun ka => P ka.2) l -> Forall (fun ka => P ka.2) (assign_all t now sel l).
Proof.
  intros Hf. unfold assign_all. revert l.
  induction sel as [|x sel IH]; intros l Hl; [done|]. simpl.
  apply IH. by apply agents_update_Forall.
Qed.

Lemma settle_all_Forall (P : agent_info -> Prop) (t status : string)
  (ags : list string) (l l' : list (string * agent_info)) :
  (forall a, P a -> P (settle t status a)) ->
  settle_all t status ags l = Returned l' ->
  Forall (fun ka => P ka.2) l -> Forall (fun ka => P ka.2) l'.
Proof.
  intros Hf. revert l. induction ags as [|x ags IH]; intros l Hret Hl.
  - by injection Hret as <-.
  - simpl in Hret. destruct (agents_lookup x l); [|done].
    eapply IH; [exact Hret|]. by apply agents_update_Forall.
Qed.

Lemma all_active_step (s s' : state) (c : call) :
  Forall (fun ka => a_status ka.2 = "active") (registered_agents s) ->
  step s c = Returned s' ->
  Forall (fun ka => a_status ka.2 = "active") (registered_agents s').
Proof.
  intros Hs. destruct c; simpl.
  - intros [= <-]. unfold register_agent.
    destruct (agents_lookup _ _); [done|]. simpl.
    apply Forall_app. split; [done|]. by repeat constructor.
  - intros [= <-]. unfold allocate_task.
    destruct (suitable_agents _ _); [done|]. simpl.
    by apply (assign_all_Forall (fun a => a_status a = "active")).
  - unfold update_task_status.
    destruct (active_tasks s !! task_id); [|by intros [= <-]].
    destruct (is_terminal status); [|by intros [= <-]].
    destruct (settle_all _ _ _ _) eqn:Hl; [|done]. simpl. intros [= <-]. simpl.
    by eapply (settle_all_Forall (fun a => a_status a = "active")).
Qed.

Lemma all_active_reachable (s : state) :
  reachable s ->
  Forall (fun ka => a_status ka.2 = "active") (registered_agents s).
Proof.
  intros [cs Hcs]. revert Hcs.
  assert (Hinit : Forall (fun ka : string * agent_info => a_status ka.2 = "active")
                         (registered_agents init)) by constructor.
  revert Hinit. generalize init.
  induction cs as [|c cs IH]; intros s0 Hs0; simpl.
  - by intros [= <-].
  - destruct (step s0 c) as [s1|] eqn:Hs1; [|done]. simpl.
    apply IH. by eapply all_active_step.
Qed.

(** X7.  No operation ever deactivates or removes an agent, so in every
    reachable state [get_system_status] counts every registered agent as
    active and none as inactive. *)
Theorem system_status_of_reachable (now : Z) (s : state) :
  reachable s ->
  let st := get_system_status now s in
  Forall (fun ka => a_status ka.2 = "active") (registered_agents s)
  /\ ss_agents_active st = length (registered_agents s)
  /\ ss_agents_active st = ss_agents_total st
  /\ ss_agents_inactive st = 0%Z.
Proof.
  intros Hreach st. split; [by apply all_active_reachable|].
  assert (Hact : ss_agents_active st = length (registered_agents s)).
  { unfold st, get_system_status. simpl.
    pose proof (all_active_reachable s Hreach) as Hall.
    induction (registered_agents s) as [|[k a] l IH]; [done|].
    apply Forall_cons in Hall as [Ha Hall]. simpl in *.
    rewrite Ha. simpl. f_equal. by apply IH. }
  split; [done|]. split; [done|].
  unfold st, get_system_status in *. simpl in *. lia.
Qed.

(** *** What a call changes and what it leaves alone *)

(** X8.  In every reachable state agent IDs are unique, and every active
    task is stored under the task ID of its allocation, names each of its
    agents once, and every agent it names is registered and holds the
    task ID in its assigned-task list. *)
Theorem active_tasks_linked_to_agents (s : state) :
  reachable s ->
  NoDup (fst <$> registered_agents s)
  /\ forall t task,
       active_tasks s !! t = Some task ->
       al_task_id (t_allocation task) = t
       /\ NoDup (allocated_agents (t_allocation task))
       /\ forall k, k ∈ allocated_agents (t_allocation task) ->
            exists a, agents_lookup k (registered_agents s) = Some a
                      /\ t ∈ assigned_tasks a.
Proof. apply reachable_wf. Qed.

(** X9.  A successful [allocate_task] in a reachable state touches the
    registry only at the agents the allocation names: each of them gets
    the task ID appended to its assigned-task list, and apart from that
    list and its last-activity time its record is as before; every other
    agent record is untouched, no agent is added or removed, and the
    history, the metrics and the other active tasks stay as they
    were. *)
Theorem allocate_task_assigns_selected (spec : task_spec) (gen_id : string)
  (now : Z) (kg : option string) (s s' : state) (alloc : allocation) :
  reachable s ->
  allocate_task spec gen_id now kg s = (Allocated alloc, s') ->
  fst <$> registered_agents s' = fst <$> registered_agents s
  /\ (forall k a,
        agents_lookup k (registered_agents s) = Some a ->
        exists a',
          agents_lookup k (registered_agents s') = Some a'
          /\ (k ∈ allocated_agents alloc ->
              assigned_tasks a' = assigned_tasks a ++ [al_task_id alloc]
              /\ performance a' = performance a
              /\ capabilities a' = capabilities a
              /\ agent_type a' = agent_type a
              /\ endpoint a' = endpoint a
              /\ a_status a' = a_status a
              /\ registration_time a' = registration_time a)
          /\ (k ∉ allocated_agents alloc -> a' = a))
  /\ task_history s' = task_history s
  /\ metrics s' = metrics s
  /\ forall t, t <> al_task_id alloc -> active_tasks s' !! t = active_tasks s !! t.
Proof.
  intros [Hnd _]%reachable_wf Halloc.
  destruct (suitable_agents (default [] (ts_required_capabilities spec))
                            (registered_agents s)) eqn:Hc.
  { by rewrite allocate_task_none in Halloc. }
  rewrite allocate_task_some in Halloc by (rewrite Hc; done).
  rewrite Hc in Halloc. injection Halloc as <- <-. simpl.
  destruct (selection_ids spec (default [] (ts_required_capabilities spec))
              (registered_agents s) Hnd) as [Hids _].
  rewrite Hc in Hids.
  split; [apply assign_all_keys|]. split; [|split; [done|split; [done|]]].
  - intros k a Ha. rewrite assign_all_lookup by done. rewrite Ha.
    destruct (mem k _) eqn:Hm; simpl; eexists; (split; [done|]).
    + split; [done|]. intros Hk. apply mem_true in Hm. done.
    + apply mem_false in Hm. split; [done|]. done.
  - intros t Hne. by rewrite lookup_insert_ne.
Qed.

(** X10.  When [update_task_status] moves an active task of a reachable
    state to "completed" or "failed", the task leaves the active set and
    its record, with the new status, the end time and the duration, is
    appended to the history; every agent of its allocation has its
    [tasks_completed] counter incremented and loses one entry of its
    assigned-task list, and every other agent record is untouched. *)
Theorem update_task_status_settles_agents (task_id status : string)
  (prog : option F) (result : option string) (now : Z) (s s' : state)
  (t : task) :
  reachable s ->
  active_tasks s !! task_id = Some t ->
  is_terminal status = true ->
  update_task_status task_id status prog result now s = Returned (true, s') ->
  active_tasks s' = delete task_id (active_tasks s)
  /\ (exists t',
        task_history s' = task_history s ++ [t']
        /\ t_status t' = status
        /\ t_allocation t' = t_allocation t
        /\ end_time t' = Some now
        /\ duration_seconds t' = Some (total_seconds (now - start_time t)))
  /\ forall k a,
       agents_lookup k (registered_agents s) = Some a ->
       exists a',
         agents_lookup k (registered_agents s') = Some a'
         /\ (k ∈ allocated_agents (t_allocation t) ->
             tasks_completed (performance a') = S (tasks_completed (performance a))
             /\ S (length (assigned_tasks a')) = length (assigned_tasks a))
         /\ (k ∉ allocated_agents (t_allocation t) -> a' = a).
Proof.
  intros [Hnd Hwf]%reachable_wf Ht Hterm. unfold update_task_status.
  rewrite Ht, Hterm.
  destruct (settle_all _ _ _ _) as [l'|] eqn:Hl'; [|done]. simpl.
  intros [= <-]. simpl. split; [done|].
  split; [eexists; split; [done|]; by simpl|].
  destruct (Hwf _ _ Ht) as (_ & Hndt & Hags).
  intros k a Ha. rewrite (settle_all_lookup _ _ _ _ _ k Hndt Hl'), Ha.
  destruct (mem k _) eqn:Hm; simpl; eexists; (split; [done|]).
  - split; [|intros Hk; by apply mem_true in Hm]. intros Hk. simpl.
    split; [done|].
    destruct (Hags k Hk) as (a0 & Ha0 & Hin). rewrite Ha in Ha0.
    injection Ha0 as <-. rewrite (proj2 (mem_true _ _) Hin).
    by apply remove_first_length.
  - apply mem_false in Hm. done.
Qed.

Lemma agent_persists_step (s s' : state) (c : call) (k : string)
  (a : agent_info) :
  wf s -> step s c = Returned s' ->
  agents_lookup k (registered_agents s) = Some a ->
  exists a',
    agents_lookup k (registered_agents s') = Some a'
    /\ agent_type a' = agent_type a
    /\ capabilities a' = capabilities a
    /\ endpoint a' = endpoint a
    /\ a_status a' = a_status a
    /\ registration_time a' = registration_time a
    /\ tasks_completed (performance a) <= tasks_completed (performance a').
Proof.
  intros [Hnd Hwf] Hstep Ha. destruct c; simpl in Hstep.
  - injection Hstep as <-. unfold register_agent.
    destruct (agents_lookup agent_id _); simpl.
    + exists a. by repeat split.
    + exists a. rewrite agents_lookup_app, Ha. by repeat split.
  - injection Hstep as <-.
    destruct (suitable_agents (default [] (ts_required_capabilities spec))
                              (registered_agents s)) eqn:Hc.
    { rewrite allocate_task_none by done. exists a. by repeat split. }
    rewrite allocate_task_some by (rewrite Hc; done). rewrite Hc. simpl.
    destruct (selection_ids spec (default [] (ts_required_capabilities spec))
                (registered_agents s) Hnd) as [Hids _].
    rewrite Hc in Hids. rewrite assign_all_lookup by done. rewrite Ha.
    destruct (mem k _); simpl; eexists; by repeat split.
  - unfold update_task_status in Hstep.
    destruct (active_tasks s !! task_id) as [t|] eqn:Ht.
    + destruct (Hwf _ _ Ht) as (_ & Hndt & _).
      destruct (is_terminal status).
      * destruct (settle_all _ _ _ _) as [l'|] eqn:Hl'; [|done].
        simpl in Hstep. injection Hstep as <-. simpl.
        rewrite (settle_all_lookup _ _ _ _ _ k Hndt Hl'), Ha.
        destruct (mem k _); simpl; eexists; repeat split; simpl; lia.
      * simpl in Hstep. injection Hstep as <-. exists a. by repeat split.
    + simpl in Hstep. injection Hstep as <-. exists a. by repeat split.
Qed.

(** X11.  Agents are never removed, and the data they registered with
    never changes: whatever calls follow a reachable state, an agent
    registered in it is still registered afterwards with the same type,
    capabilities, endpoint, status and registration time, and its
    [tasks_completed] counter has not decreased. *)
Theorem agent_records_persist (cs : list call) (s s' : state) (k : string)
  (a : agent_info) :
  reachable s ->
  run s cs = Returned s' ->
  agents_lookup k (registered_agents s) = Some a ->
  exists a',
    agents_lookup k (registered_agents s') = Some a'
    /\ agent_type a' = agent_type a
    /\ capabilities a' = capabilities a
    /\ endpoint a' = endpoint a
    /\ a_status a' = a_status a
    /\ registration_time a' = registration_time a
    /\ tasks_completed (performance a) <= tasks_completed (performance a').
Proof.
  intros Hwf%reachable_wf. revert s a Hwf.
  induction cs as [|c cs IH]; intros s a Hwf; simpl.
  - intros [= <-] Ha. exists a. by repeat split.
  - destruct (step s c) as [s1|] eqn:Hs1; [|done]. simpl. intros Hrun Ha.
    destruct (agent_persists_step s s1 c k a Hwf Hs1 Ha)
      as (a1 & Ha1 & Hty & Hcap & Hep & Hst & Hreg & Hcnt).
    destruct (IH s1 a1 (wf_step _ _ _ Hwf Hs1) Hrun Ha1)
      as (a' & Ha' & Hty' & Hcap' & Hep' & Hst' & Hreg' & Hcnt').
    exists a'. repeat split; try congruence. lia.
Qed.

(** *** How many agents, and which one first *)

(** X12.  A "single" allocation names exactly one agent.  A "parallel"
    allocation is made only with more than one eligible agent, and
    names [min(parallelism, eligible)] agents for a parallelism that is
    not negative, but [max(0, eligible + parallelism)] for a negative one
    (the slice counts from the end); so with parallelism 0 a task is
    allocated to no agent at all. *)
Theorem allocation_size (spec : task_spec) (gen_id : string) (now : Z)
  (kg : option string) (s s' : state) (alloc : allocation) :
  allocate_task spec gen_id now kg s = (Allocated alloc, s') ->
  let n := length (suitable_agents (default [] (ts_required_capabilities spec))
                                   (registered_agents s)) in
  let p := default 2%Z (ts_parallelism spec) in
  (allocation_type alloc = "single" /\ length (allocated_agents alloc) = 1)
  \/ (allocation_type alloc = "parallel"
      /\ default false (ts_parallel_execution spec) = true
      /\ 1 < n
      /\ Z.of_nat (length (allocated_agents alloc))
         = if (p <? 0)%Z then (0 `max` (Z.of_nat n + p))%Z
           else (p `min` Z.of_nat n)%Z).
Proof.
  intros Halloc n p.
  set (cands := suitable_agents (default [] (ts_required_capabilities spec))
                                (registered_agents s)) in *.
  assert (Hne : cands <> []).
  { intros Hnil. by rewrite allocate_task_none in Halloc. }
  assert (Hn1 : 1 <= n) by (unfold n; destruct cands; [done|simpl; lia]).
  rewrite allocate_task_some in Halloc by done. fold cands in Halloc.
  injection Halloc as <- <-.
  cbn [allocation_type allocated_agents new_allocation].
  unfold select_agents. rewrite sort_desc_length. fold n p.
  destruct (default false (ts_parallel_execution spec)) eqn:Hpar; simpl.
  - destruct (Nat.ltb_spec 1 n) as [Hn|Hn]; simpl.
    + right. split; [done|]. split; [done|]. split; [done|].
      rewrite length_fmap. unfold slice_to. rewrite sort_desc_length. fold n.
      destruct (Z.ltb_spec (p `min` Z.of_nat n) 0) as [Hlt|Hge];
        rewrite length_take, sort_desc_length; fold n;
        destruct (Z.ltb_spec p 0); lia.
    + left. split; [done|].
      rewrite length_fmap, length_take, sort_desc_length. fold n. lia.
  - left. split; [done|].
    rewrite length_fmap, length_take, sort_desc_length. fold n. lia.
Qed.

Lemma sort_desc_head (l : list suitable_agent) (top : suitable_agent)
  (rest : list suitable_agent) :
  sort_desc l = top :: rest ->
  exists pre post,
    l = pre ++ top :: post
    /\ Forall (fun y => flt (score y) (score top) = true) pre.
Proof.
  revert top rest. induction l as [|x l IH]; intros top rest; [done|]. simpl.
  destruct (sort_desc l) as [|h r] eqn:Hs; simpl.
  - intros [= <- <-]. exists [], l. by split.
  - destruct (flt (score x) (score h)) eqn:Hxh.
    + intros [= <- <-]. destruct (IH h r eq_refl) as (pre & post & -> & Hpre).
      exists (x :: pre), post. split; [done|]. by constructor.
    + intros [= <- <-]. exists [], l. by split.
Qed.

Lemma slice_to_head {A : Type} (k : Z) (l : list A) (x : A) :
  head (slice_to k l) = Some x -> head l = Some x.
Proof.
  unfold slice_to. destruct (k <? 0)%Z.
  - destruct (Z.to_nat _), l; simpl; congruence.
  - destruct (Z.to_nat _), l; simpl; congruence.
Qed.

(** X13.  The first agent of an allocation wins every tie by registry
    order: each candidate that stands before it in the registry has a
    strictly smaller score. *)
Theorem first_selected_beats_earlier_candidates (spec : task_spec)
  (gen_id : string) (now : Z) (kg : option string) (s s' : state)
  (alloc : allocation) (k : string) :
  allocate_task spec gen_id now kg s = (Allocated alloc, s') ->
  head (allocated_agents alloc) = Some k ->
  exists pre top post,
    suitable_agents (default [] (ts_required_capabilities spec))
                    (registered_agents s) = pre ++ top :: post
    /\ sa_agent_id top = k
    /\ Forall (fun y => flt (score y) (score top) = true) pre.
Proof.
  intros Halloc Hk.
  remember (suitable_agents (default [] (ts_required_capabilities spec))
                            (registered_agents s)) as cands eqn:Hc.
  assert (Hne : cands <> []).
  { intros Hnil. rewrite allocate_task_none in Halloc by congruence. done. }
  rewrite allocate_task_some in Halloc by congruence.
  rewrite <- Hc in Halloc. injection Halloc as <- <-.
  cbn [allocated_agents new_allocation] in Hk.
  remember (sort_desc cands) as sorted eqn:Hs.
  assert (Htop : exists top, head sorted = Some top /\ sa_agent_id top = k).
  { unfold select_agents in Hk.
    destruct (default false (ts_parallel_execution spec) && (1 <? length sorted));
      cbn [fst] in Hk.
    - destruct (slice_to _ _) as [|y ys] eqn:Hsl; [done|].
      simpl in Hk. injection Hk as <-. exists y. split; [|done].
      eapply slice_to_head. by rewrite Hsl.
    - destruct sorted as [|y ys]; [done|].
      simpl in Hk. injection Hk as <-. by exists y. }
  destruct Htop as (top & Hhead & Hid).
  destruct sorted as [|y ys]; [done|].
  simpl in Hhead. injection Hhead as ->.
  destruct (sort_desc_head _ _ _ (eq_sym Hs)) as (pre & post & Heq & Hpre).
  by exists pre, top, post.
Qed.

(** X14.  Every candidate of an allocation matches all the required
    capabilities: the capability ratio that enters its score is
    [len(required) / len(required)], and partial matches are never
    scored. *)
Theorem candidates_match_every_capability (required : list string)
  (l : list (string * agent_info)) (x : suitable_agent) :
  x ∈ suitable_agents required l ->
  exists k a,
    (k, a) ∈ l
    /\ x = score_agent required k a
    /\ a_status a = "active"
    /\ length (List.filter (fun cap => mem cap (capabilities a)) required)
       = length required.
Proof.
  intros (k & a & Hin & He & ->)%suitable_agents_elem.
  exists k, a. split; [done|]. split; [done|].
  apply eligible_spec in He as [Hact Hsub]. split; [done|].
  clear Hin. induction required as [|c required IH]; [done|]. simpl.
  assert (Hc : mem c (capabilities a) = true)
    by (apply mem_true, Hsub, elem_of_cons; by left).
  rewrite Hc. simpl. f_equal. apply IH.
  intros y Hy. apply Hsub, elem_of_cons. by right.
Qed.

(** *** Assigned-task lists when active IDs are not reused *)

Lemma remove_first_elem (x y : string) (l : list string) :
  y ∈ remove_first x l -> y ∈ l.
Proof.
  induction l as [|z l IH]; [done|]. simpl.
  destruct (String.eqb x z).
  - intros Hy. apply elem_of_cons. by right.
  - intros [->|Hy]%elem_of_cons; apply elem_of_cons; [by left|right; by apply IH].
Qed.

Lemma remove_first_NoDup (x : string) (l : list string) :
  NoDup l -> NoDup (remove_first x l) /\ x ∉ remove_first x l.
Proof.
  induction l as [|z l IH]; intros Hnd; simpl.
  - split; [constructor|apply not_elem_of_nil].
  - apply NoDup_cons in Hnd as [Hz Hnd].
    destruct (String.eqb_spec x z) as [->|Hne]; [done|].
    destruct (IH Hnd) as [Hnd' Hx]. split.
    + apply NoDup_cons. split; [|done]. intros Hin. apply Hz.
      by eapply remove_first_elem.
    + intros [?|?]%elem_of_cons; done.
Qed.

Lemma assigned_active_step (s s' : state) (c : call) :
  wf s ->
  (forall k a, agents_lookup k (registered_agents s) = Some a ->
     NoDup (assigned_tasks a)
     /\ forall t, t ∈ assigned_tasks a ->
          exists task, active_tasks s !! t = Some task
                       /\ k ∈ allocated_agents (t_allocation task)) ->
  allocates_inactive (s, c) ->
  step s c = Returned s' ->
  forall k a, agents_lookup k (registered_agents s') = Some a ->
    NoDup (assigned_tasks a)
    /\ forall t, t ∈ assigned_tasks a ->
         exists task, active_tasks s' !! t = Some task
                      /\ k ∈ allocated_agents (t_allocation task).
Proof.
  intros [Hnd Hwf] HJ Hfresh. destruct c; simpl.
  - intros [= <-]. unfold register_agent.
    destruct (agents_lookup agent_id _) eqn:Hl; [done|]. simpl.
    intros k a. rewrite agents_lookup_app.
    destruct (agents_lookup k _) eqn:Hk.
    + intros [= <-]. by apply HJ.
    + simpl. destruct (String.eqb k agent_id); [|done].
      intros [= <-]. simpl. split; [constructor|].
      intros t Ht. by apply not_elem_of_nil in Ht.
  - intros [= <-]. unfold allocates_inactive in Hfresh. simpl in Hfresh.
    destruct (suitable_agents (default [] (ts_required_capabilities spec))
                              (registered_agents s)) eqn:Hc.
    { rewrite allocate_task_none by done. done. }
    rewrite allocate_task_some in Hfresh |- * by (rewrite Hc; done).
    rewrite Hc in Hfresh |- *. simpl in Hfresh |- *.
    set (id := default gen_id (ts_task_id spec)) in *.
    destruct (selection_ids spec (default [] (ts_required_capabilities spec))
                (registered_agents s) Hnd) as [Hids _].
    rewrite Hc in Hids. intros k a. rewrite assign_all_lookup by done.
    destruct (agents_lookup k (registered_agents s)) as [a0|] eqn:Hk;
      [|by destruct (mem k _)].
    destruct (HJ k a0 Hk) as [Hnd0 Hact0].
    assert (Hold : forall t, t ∈ assigned_tasks a0 ->
              exists task, <[id := new_task spec
                  (new_allocation id
                     (select_agents spec (sort_desc (s0 :: l))).2
                     (sa_agent_id <$> (select_agents spec (sort_desc (s0 :: l))).1)
                     now (default 5%Z (ts_priority spec))) now kg]>
                  (active_tasks s) !! t = Some task
                /\ k ∈ allocated_agents (t_allocation task)).
    { intros t Ht. destruct (Hact0 t Ht) as (task & Htask & Hin).
      exists task. split; [|done]. rewrite lookup_insert_ne; [done|].
      intros <-. congruence. }
    destruct (mem k _) eqn:Hm; simpl; intros [= <-]; [|by split].
    simpl. split.
    + apply NoDup_app. split; [done|]. split; [|apply NoDup_singleton].
      intros t Ht ->%list_elem_of_singleton.
      destruct (Hact0 id Ht) as (task & Htask & _). congruence.
    + intros t [Ht| ->%list_elem_of_singleton]%elem_of_app; [by apply Hold|].
      eexists. split; [apply lookup_insert_eq|]. simpl. by apply mem_true.
  - unfold update_task_status.
    destruct (active_tasks s !! task_id) as [t0|] eqn:Ht0;
      [|by intros [= <-]].
    destruct (Hwf _ _ Ht0) as (_ & Hndt & _).
    destruct (is_terminal status).
    + destruct (settle_all _ _ _ _) as [l'|] eqn:Hl'; [|done]. simpl.
      intros [= <-]. simpl. intros k a.
      rewrite (settle_all_lookup _ _ _ _ _ k Hndt Hl').
      destruct (agents_lookup k (registered_agents s)) as [a0|] eqn:Hk;
        [|by destruct (mem k _)].
      destruct (HJ k a0 Hk) as [Hnd0 Hact0].
      destruct (mem k _) eqn:Hm; simpl; intros [= <-]; simpl.
      * destruct (mem task_id (assigned_tasks a0)) eqn:Hmem.
        -- destruct (remove_first_NoDup task_id _ Hnd0) as [Hnd1 Hout].
           split; [done|]. intros t Ht.
           destruct (Hact0 t (remove_first_elem _ _ _ Ht)) as (task & Htask & Hin).
           exists task. split; [|done]. rewrite lookup_delete_ne; [done|].
           intros <-. done.
        -- apply mem_false in Hmem. split; [done|]. intros t Ht.
           destruct (Hact0 t Ht) as (task & Htask & Hin).
           exists task. split; [|done]. rewrite lookup_delete_ne; [done|].
           intros <-. done.
      * apply mem_false in Hm. split; [done|]. intros t Ht.
        destruct (Hact0 t Ht) as (task & Htask & Hin).
        exists task. split; [|done]. rewrite lookup_delete_ne; [done|].
        intros <-. rewrite Ht0 in Htask. injection Htask as <-. done.
    + simpl. intros [= <-]. simpl. intros k a Hk.
      destruct (HJ k a Hk) as [Hnd0 Hact0]. split; [done|]. intros t Ht.
      destruct (Hact0 t Ht) as (task & Htask & Hin).
      destruct (decide (task_id = t)) as [<-|Hne].
      * eexists. split; [apply lookup_insert_eq|]. simpl. congruence.
      * exists task. by rewrite lookup_insert_ne.
Qed.

Lemma assigned_active_run (cs : list call) (s s' : state) :
  wf s ->
  (forall k a, agents_lookup k (registered_agents s) = Some a ->
     NoDup (assigned_tasks a)
     /\ forall t, t ∈ assigned_tasks a ->
          exists task, active_tasks s !! t = Some task
                       /\ k ∈ allocated_agents (t_allocation task)) ->
  Forall allocates_inactive (trace s cs) ->
  run s cs = Returned s' ->
  forall k a, agents_lookup k (registered_agents s') = Some a ->
    NoDup (assigned_tasks a)
    /\ forall t, t ∈ assigned_tasks a ->
         exists task, active_tasks s' !! t = Some task
                      /\ k ∈ allocated_agents (t_allocation task).
Proof.
  revert s. induction cs as [|c cs IH]; intros s Hwf HJ Hfresh; simpl.
  - by intros [= <-].
  - simpl in Hfresh. apply Forall_cons in Hfresh as [Hc Hfresh].
    destruct (step s c) as [s1|] eqn:Hs1; [|done]. simpl.
    apply IH; [by eapply wf_step | by eapply assigned_active_step | done].
Qed.

(** X15.  As long as no allocation is made under the ID of a task that
    is still active, an agent's assigned-task list is exactly its share
    of the active tasks: it has no duplicate, and a task ID is in it if
    and only if an active task of that ID names the agent in its
    allocation.  In particular it never holds the ID of a task that is
    no longer active. *)
Theorem assigned_tasks_are_active_tasks (cs : list call) (s : state)
  (k : string) (a : agent_info) :
  run init cs = Returned s ->
  Forall allocates_inactive (trace init cs) ->
  agents_lookup k (registered_agents s) = Some a ->
  NoDup (assigned_tasks a)
  /\ forall t, t ∈ assigned_tasks a <->
       exists task, active_tasks s !! t = Some task
                    /\ k ∈ allocated_agents (t_allocation task).
Proof.
  intros Hrun Hfresh Ha.
  destruct (assigned_active_run cs init s wf_init ltac:(done) Hfresh Hrun k a Ha)
    as [Hnd Hact].
  split; [done|]. intros t. split; [apply Hact|].
  intros (task & Htask & Hin).
  destruct (wf_run cs init s wf_init Hrun) as [_ Hwf].
  destruct (Hwf _ _ Htask) as (_ & _ & Hags).
  destruct (Hags k Hin) as (a0 & Ha0 & Hin0). congruence.
Qed.

(** *** The decision pipeline *)

Lemma complete_task (task_id : string) (w : world) (i : nat) (s : state)
  (t : task) :
  wf s ->
  active_tasks s !! task_id = Some t ->
  exists r1 r2 t',
    update_task_status task_id "in_progress" (Some (of_int 50)) None
                       (w_progress_time w i) s = Returned r1
    /\ update_task_status task_id "completed" (Some (of_int 100))
                          (Some "{'outcome': 'success'}")
                          (w_completion_time w i) r1.2 = Returned r2
    /\ wf r2.2
    /\ active_tasks r2.2 = delete task_id (active_tasks s)
    /\ task_history r2.2 = task_history s ++ [t']
    /\ t_allocation t' = t_allocation t
    /\ t_status t' = "completed"
    /\ progress t' = of_int 100
    /\ m_tasks_completed (metrics r2.2) = S (m_tasks_completed (metrics s))
    /\ m_tasks_failed (metrics r2.2) = m_tasks_failed (metrics s)
    /\ forall k, load k r2.2
                 + (if mem k (allocated_agents (t_allocation t)) then 1 else 0)
                 = load k s.
Proof.
  intros Hwf Ht.
  destruct (update_task_status_returns task_id "in_progress" (Some (of_int 50))
              None (w_progress_time w i) s Hwf ltac:(by eexists)) as [s1 Hs1].
  pose proof (wf_update _ _ _ _ _ _ _ _ Hwf Hs1) as Hwf1.
  assert (Hs1' : s1 = {| registered_agents := registered_agents s;
                         active_tasks := <[task_id :=
                           {| t_spec := t_spec t;
                              t_allocation := t_allocation t;
                              start_time := start_time t;
                              t_status := "in_progress";
                              progress := of_int 50;
                              t_kg_entity_id := t_kg_entity_id t;
                              t_result := t_result t;
                              last_updated := Some (w_progress_time w i);
                              end_time := end_time t;
                              duration_seconds := duration_seconds t |}]>
                           (active_tasks s);
                         task_history := task_history s;
                         metrics := metrics s |}).
  { unfold update_task_status in Hs1. rewrite Ht in Hs1. simpl in Hs1.
    by injection Hs1 as <-. }
  assert (Ht1 : is_Some (active_tasks s1 !! task_id)).
  { rewrite Hs1'. simpl. rewrite lookup_insert_eq. by eexists. }
  destruct (update_task_status_returns task_id "completed" (Some (of_int 100))
              (Some "{'outcome': 'success'}") (w_completion_time w i) s1 Hwf1 Ht1)
    as [s2 Hs2].
  pose proof (wf_update _ _ _ _ _ _ _ _ Hwf1 Hs2) as Hwf2.
  exists (true, s1), (true, s2). simpl.
  assert (Hload : forall k, load k s2
                    + (if mem k (allocated_agents (t_allocation t)) then 1 else 0)
                    = load k s).
  { intros k.
    pose proof (load_step k s s1
                  (Update task_id "in_progress" (Some (of_int 50)) None
                          (w_progress_time w i)) Hwf) as H1.
    simpl in H1. rewrite Hs1 in H1. specialize (H1 eq_refl).
    unfold settles, selects in H1. simpl in H1. rewrite Ht in H1. simpl in H1.
    pose proof (load_step k s1 s2
                  (Update task_id "completed" (Some (of_int 100))
                          (Some "{'outcome': 'success'}")
                          (w_completion_time w i)) Hwf1) as H2.
    simpl in H2. rewrite Hs2 in H2. specialize (H2 eq_refl).
    unfold settles, selects in H2. simpl in H2.
    assert (Hl1 : exists t1, active_tasks s1 !! task_id = Some t1
                             /\ t_allocation t1 = t_allocation t).
    { rewrite Hs1'. simpl. rewrite lookup_insert_eq. by eexists. }
    destruct Hl1 as (t1 & Hl1 & Hal1). rewrite Hl1, Hal1 in H2.
    destruct (mem k (allocated_agents (t_allocation t))); simpl in H2; lia. }
  pose proof Hs2 as Hs2u.
  unfold update_task_status in Hs2u. rewrite Hs1' in Hs2u.
  simpl in Hs2u. rewrite lookup_insert_eq in Hs2u. simpl in Hs2u.
  destruct (settle_all _ _ _ _) as [l'|]; [|done]. simpl in Hs2u.
  injection Hs2u as Hs2u.
  eexists. split; [done|]. split; [exact Hs2|]. split; [done|].
  rewrite <- Hs2u. simpl.
  split; [by rewrite delete_insert_eq|].
  split; [done|]. simpl. repeat split; try done.
  intros k. rewrite Hs2u. apply Hload.
Qed.

Lemma filter_names_agent_ext (k : string) (s1 s2 : state) (ids : list string) :
  (forall t, t ∈ ids -> active_tasks s1 !! t = active_tasks s2 !! t) ->
  List.filter (names_agent k s1) ids = List.filter (names_agent k s2) ids
  /\ List.filter (is_active s1) ids = List.filter (is_active s2) ids.
Proof.
  intros Heq. split; apply filter_ext_in; intros t Ht%list_elem_of_In.
  - unfold names_agent. by rewrite Heq.
  - unfold is_active. by rewrite Heq.
Qed.

Lemma monitor_thread_completes (ets : list execution_task) (ids : list string)
  (i : nat) (w : world) (s : state) :
  wf s ->
  (fun et => ts_task_id (pt_spec (et_task_spec et))) <$> ets = Some <$> ids ->
  NoDup ids ->
  exists s' new,
    monitor_thread ets i w s = Returned s'
    /\ wf s'
    /\ (forall t, active_tasks s' !! t
                  = if bool_decide (t ∈ ids) then None else active_tasks s !! t)
    /\ (forall k, load k s' + length (List.filter (names_agent k s) ids)
                  = load k s)
    /\ task_history s' = task_history s ++ new
    /\ (fun t => al_task_id (t_allocation t)) <$> new
       = List.filter (is_active s) ids
    /\ Forall (fun t => t_status t = "completed" /\ progress t = of_int 100) new
    /\ m_tasks_completed (metrics s')
       = m_tasks_completed (metrics s) + length (List.filter (is_active s) ids)
    /\ m_tasks_failed (metrics s') = m_tasks_failed (metrics s).
Proof.
  revert ids i s. induction ets as [|et ets IH]; intros ids i s Hwf Hids Hnd.
  - destruct ids; [|done]. exists s, []. simpl. rewrite app_nil_r.
    split; [done|]. split; [exact Hwf|].
    repeat split; try done; intros; lia.
  - destruct ids as [|id ids]; [done|]. simpl in Hids.
    injection Hids as Hid Hids. apply NoDup_cons in Hnd as [Hnotin Hnd].
    simpl. rewrite Hid.
    destruct (active_tasks s !! id) as [t|] eqn:Ht.
    + destruct (complete_task id w i s t Hwf Ht)
        as (r1 & r2 & t' & Hr1 & Hr2 & Hwf2 & Hact2 & Hhist2 & Hal & Hst & Hpr
            & Hmc & Hmf & Hload2).
      rewrite Hr1. simpl. rewrite Hr2. simpl.
      destruct (IH ids (S i) r2.2 Hwf2 Hids Hnd)
        as (s' & new & Hmon & Hwf' & Hact' & Hload' & Hhist' & Hnew & Hall
            & Hmc' & Hmf').
      assert (Hsame : forall x, x ∈ ids ->
                active_tasks r2.2 !! x = active_tasks s !! x).
      { intros x Hx. rewrite Hact2. apply lookup_delete_ne. congruence. }
      destruct (filter_names_agent_ext) with (k := id) (1 := Hsame) as [_ Hlive].
      exists s', (t' :: new). split; [done|]. split; [done|]. split; [|split].
      * intros x. rewrite Hact'. rewrite Hact2.
        destruct (decide (x = id)) as [->|Hne].
        -- rewrite lookup_delete_eq.
           rewrite (bool_decide_eq_true_2 (id ∈ id :: ids))
             by (apply elem_of_cons; by left).
           by destruct (bool_decide (id ∈ ids)).
        -- rewrite lookup_delete_ne by done.
           destruct (bool_decide_reflect (x ∈ ids)) as [Hx|Hx].
           ++ rewrite bool_decide_eq_true_2; [done|].
              apply elem_of_cons; by right.
           ++ rewrite bool_decide_eq_false_2; [done|].
              intros [?|?]%elem_of_cons; done.
      * intros k. specialize (Hload' k). specialize (Hload2 k).
        destruct (filter_names_agent_ext k _ _ _ Hsame) as [Hk _].
        rewrite Hk in Hload'. simpl. unfold names_agent at 1. rewrite Ht.
        destruct (mem k (allocated_agents (t_allocation t))); simpl; lia.
      * split; [rewrite Hhist', Hhist2, <- app_assoc; done|].
        destruct Hwf as [_ Hwfs]. destruct (Hwfs _ _ Ht) as (Hidt & _ & _).
        assert (Hactive : is_active s id = true).
        { unfold is_active. apply bool_decide_eq_true_2. by eexists. }
        rewrite fmap_cons, Hal, Hidt, Hnew, Hlive, Hmc', Hmf', Hlive, Hmc, Hmf.
        simpl. rewrite Hactive. simpl.
        split; [done|]. split; [by constructor|]. split; [lia|done].
    + destruct (IH ids (S i) s Hwf Hids Hnd)
        as (s' & new & Hmon & Hwf' & Hact' & Hload' & Hhist' & Hnew & Hall
            & Hmc' & Hmf').
      assert (Hinactive : is_active s id = false).
      { unfold is_active. apply bool_decide_eq_false_2. rewrite Ht.
        by intros [? ?]. }
      exists s', new. split; [done|]. split; [done|]. split; [|split].
      * intros x. rewrite Hact'.
        destruct (decide (x = id)) as [->|Hne].
        -- rewrite (bool_decide_eq_true_2 (id ∈ id :: ids))
             by (apply elem_of_cons; by left).
           rewrite bool_decide_eq_false_2 by done. done.
        -- destruct (bool_decide_reflect (x ∈ ids)) as [Hx|Hx].
           ++ rewrite bool_decide_eq_true_2; [done|].
              apply elem_of_cons; by right.
           ++ rewrite bool_decide_eq_false_2; [done|].
              intros [?|?]%elem_of_cons; done.
      * intros k. specialize (Hload' k). simpl. unfold names_agent at 1.
        rewrite Ht. done.
      * simpl. rewrite Hinactive. done.
Qed.

Lemma allocate_task_effect (spec : task_spec) (gen_id : string) (now : Z)
  (kg : option string) (s : state) (id : string) :
  wf s ->
  ts_task_id spec = Some id ->
  let r := allocate_task spec gen_id now kg s in
  wf r.2
  /\ task_history r.2 = task_history s
  /\ metrics r.2 = metrics s
  /\ (forall t, t <> id -> active_tasks r.2 !! t = active_tasks s !! t)
  /\ match r.1 with
     | Allocated alloc =>
         al_task_id alloc = id
         /\ exists t, active_tasks r.2 !! id = Some t /\ t_allocation t = alloc
     | Unallocated _ => active_tasks r.2 !! id = active_tasks s !! id
     end
  /\ forall k, load k r.2
               = load k s
                 + (if selects k (s, Allocate spec gen_id now kg) then 1 else 0).
Proof.
  intros Hwf Hid r. split; [by apply wf_allocate|].
  assert (Hload : forall k, load k r.2
            = load k s + (if selects k (s, Allocate spec gen_id now kg) then 1 else 0)).
  { intros k.
    pose proof (load_step k s r.2 (Allocate spec gen_id now kg) Hwf eq_refl) as H1.
    unfold settles in H1. simpl in H1. lia. }
  unfold r in *. clear r. unfold allocate_task in *. rewrite Hid in *. simpl in *.
  destruct (suitable_agents _ _); simpl in *.
  - repeat split; done.
  - split; [done|]. split; [done|]. split.
    + intros t Hne. by rewrite lookup_insert_ne.
    + split; [|done]. split; [done|]. eexists. split; [apply lookup_insert_eq|done].
Qed.

Lemma allocate_plan_effect (tasks : list plan_task) (ids : list string)
  (i : nat) (w : world) (s : state) :
  wf s ->
  (fun pt => ts_task_id (pt_spec pt)) <$> tasks = Some <$> ids ->
  NoDup ids ->
  (forall t, t ∈ ids -> active_tasks s !! t = None) ->
  let r := allocate_plan tasks i w s in
  wf r.2
  /\ et_task_spec <$> r.1 = tasks
  /\ task_history r.2 = task_history s
  /\ metrics r.2 = metrics s
  /\ (forall t, t ∉ ids -> active_tasks r.2 !! t = active_tasks s !! t)
  /\ (forall k, load k r.2
                = load k s + length (List.filter (names_agent k r.2) ids))
  /\ omap allocated_task_id r.1 = List.filter (is_active r.2) ids.
Proof.
  revert ids i s. induction tasks as [|pt tasks IH];
    intros ids i s Hwf Hids Hnd Hfree.
  - destruct ids; [|done]. simpl. split; [exact Hwf|].
    repeat split; try done; intros; lia.
  - destruct ids as [|id ids]; [done|]. simpl in Hids.
    injection Hids as Hid Hids. apply NoDup_cons in Hnd as [Hnotin Hnd].
    destruct (allocate_task_effect (pt_spec pt) (w_task_uuid w i)
                (w_allocation_time w i) (w_kg w i) s id Hwf Hid)
      as (Hwfa & Hha & Hma & Hother & Hres & Hloada).
    set (ra := allocate_task (pt_spec pt) (w_task_uuid w i)
                 (w_allocation_time w i) (w_kg w i) s) in *.
    assert (Hfree' : forall t, t ∈ ids -> active_tasks ra.2 !! t = None).
    { intros t Ht. rewrite Hother by congruence.
      apply Hfree, elem_of_cons. by right. }
    destruct (IH ids (S i) ra.2 Hwfa Hids Hnd Hfree')
      as (Hwf1 & Hspecs & Hh1 & Hm1 & Hout & Hload1 & Hal1).
    set (r1 := allocate_plan tasks (S i) w ra.2) in *.
    assert (Hid1 : active_tasks r1.2 !! id = active_tasks ra.2 !! id)
      by (by apply Hout).
    assert (Hna : forall k, names_agent k r1.2 id
                  = selects k (s, Allocate (pt_spec pt) (w_task_uuid w i)
                                          (w_allocation_time w i) (w_kg w i))).
    { intros k. unfold names_agent, selects. rewrite Hid1. simpl. fold ra.
      destruct ra.1 as [u|alloc].
      - rewrite Hres, Hfree by (apply elem_of_cons; by left). done.
      - by destruct Hres as (_ & t & -> & ->). }
    assert (Hia : omap allocated_task_id
                    [ {| et_task_spec := pt; et_allocation := ra.1 |} ]
                  = List.filter (is_active r1.2) [id]).
    { unfold allocated_task_id. simpl. unfold is_active. rewrite Hid1.
      destruct ra.1 as [u|alloc].
      - rewrite Hres, Hfree by (apply elem_of_cons; by left).
        by rewrite bool_decide_eq_false_2 by (by intros [? ?]).
      - destruct Hres as (-> & t & -> & _).
        by rewrite bool_decide_eq_true_2 by (by eexists). }
    intros r. unfold r. clear r. cbn [allocate_plan fst snd]. fold ra. fold r1.
    split; [done|]. split; [by rewrite fmap_cons, Hspecs|].
    split; [congruence|]. split; [congruence|]. split; [|split].
    + intros t Ht. apply not_elem_of_cons in Ht as [Hne Ht].
      rewrite Hout by done. by apply Hother.
    + intros k. rewrite Hload1, Hloada. simpl. rewrite Hna.
      destruct (selects k _); simpl; lia.
    + change (?x :: r1.1) with ([x] ++ r1.1).
      change (id :: ids) with ([id] ++ ids).
      rewrite omap_app, List.filter_app, Hia, Hal1. done.
Qed.

(** X16.  [execute_strategic_decision] returns only after
    [_monitor_execution] has driven every task of its plan that found an
    agent through "in_progress" to "completed".  From a reachable state,
    with three distinct plan task IDs none of which is active, the
    returned status is "in_progress", yet on return the active set is
    what it was before the call, every agent's assigned-task list has
    its earlier length, and the history has grown by one completed
    record (progress 100) per allocated plan task, in plan order, with
    [tasks_completed] raised by as many. *)
Theorem execute_strategic_decision_completes_its_tasks
  (ctx : decision_context) (w : world) (s : state) :
  reachable s ->
  NoDup [ (w_plan_uuids w).1.1; (w_plan_uuids w).1.2; (w_plan_uuids w).2 ] ->
  (forall t, t ∈ [ (w_plan_uuids w).1.1; (w_plan_uuids w).1.2; (w_plan_uuids w).2 ] ->
     active_tasks s !! t = None) ->
  exists d s' new,
    execute_strategic_decision ctx w s = Ok (d, Returned s')
    /\ d_status d = "in_progress"
    /\ plan_tasks (d_execution_plan d) = et_task_spec <$> d_execution_tasks d
    /\ active_tasks s' = active_tasks s
    /\ (forall k, load k s' = load k s)
    /\ task_history s' = task_history s ++ new
    /\ (fun t => al_task_id (t_allocation t)) <$> new
       = omap allocated_task_id (d_execution_tasks d)
    /\ Forall (fun t => t_status t = "completed" /\ progress t = of_int 100) new
    /\ m_tasks_completed (metrics s')
       = m_tasks_completed (metrics s) + length new
    /\ m_tasks_failed (metrics s') = m_tasks_failed (metrics s).
Proof.
  intros Hwf%reachable_wf Hnd Hfree. unfold execute_strategic_decision.
  destruct (w_plan_uuids w) as [[id1 id2] id3] eqn:Hw. simpl in Hnd, Hfree.
  destruct (_select_action _ _) as [action|e] eqn:Hsel; [|done].
  set (plan := _create_execution_plan action id1 id2 id3).
  assert (Hplan : (fun pt => ts_task_id (pt_spec pt)) <$> plan_tasks plan
                  = Some <$> [id1; id2; id3]) by done.
  destruct (allocate_plan_effect (plan_tasks plan) [id1; id2; id3] 0 w s
              Hwf Hplan Hnd Hfree)
    as (Hwf1 & Hspecs & Hh1 & Hm1 & Hout & Hload1 & Hal1).
  set (r1 := allocate_plan (plan_tasks plan) 0 w s) in *.
  assert (Hets : (fun et => ts_task_id (pt_spec (et_task_spec et))) <$> r1.1
                 = Some <$> [id1; id2; id3]).
  { rewrite <- Hplan, <- Hspecs, <- list_fmap_compose. done. }
  destruct (monitor_thread_completes r1.1 [id1; id2; id3] 0 w r1.2 Hwf1 Hets Hnd)
    as (s' & new & Hmon & Hwf' & Hact' & Hload' & Hhist' & Hnew & Hall
        & Hmc' & Hmf').
  eexists _, s', new. unfold _monitor_execution. rewrite Hmon.
  split; [done|]. cbn [d_status d_execution_plan d_execution_tasks].
  split; [done|]. split; [by rewrite Hspecs|]. split.
  { apply map_eq. intros t. rewrite Hact'.
    destruct (bool_decide_reflect (t ∈ [id1; id2; id3])) as [Ht|Ht].
    - by rewrite Hfree.
    - by apply Hout. }
  split.
  { intros k. specialize (Hload' k). specialize (Hload1 k). lia. }
  split; [congruence|]. split; [by rewrite Hnew, Hal1|]. split; [done|].
  split; [|congruence]. rewrite Hmc', Hm1. f_equal.
  by rewrite <- Hnew, length_fmap.
Qed.

Lemma dict_set_head_scores (k0 k : string) (v0 v : evaluation)
  (d : list (string * evaluation)) :
  overall_score v = lit_0_7 ->
  Forall (fun kv => overall_score kv.2 = lit_0_7) ((k0, v0) :: d) ->
  exists v1 d1,
    dict_set k v ((k0, v0) :: d) = (k0, v1) :: d1
    /\ Forall (fun kv => overall_score kv.2 = lit_0_7) ((k0, v1) :: d1).
Proof.
  intros Hv Hall. simpl. destruct (String.eqb k k0).
  - exists v, d. split; [done|]. apply Forall_cons in Hall as [_ Hd].
    by constructor.
  - exists v0, (dict_set k v d). split; [done|].
    apply Forall_cons in Hall as [H0 Hd]. constructor; [done|].
    clear H0. induction d as [|[j u] d IH]; simpl.
    + by repeat constructor.
    + apply Forall_cons in Hd as [Hu Hd]. destruct (String.eqb k j).
      * by constructor.
      * constructor; [done|]. by apply IH.
Qed.

Lemma evaluate_fold_head (ev0 : evaluation) (k0 : string)
  (l : list alternative) (v0 : evaluation) (d : list (string * evaluation)) :
  overall_score ev0 = lit_0_7 ->
  Forall (fun kv => overall_score kv.2 = lit_0_7) ((k0, v0) :: d) ->
  exists v d',
    fold_left (fun evaluations alt => dict_set (alt_id alt) ev0 evaluations)
              l ((k0, v0) :: d) = (k0, v) :: d'
    /\ Forall (fun kv => overall_score kv.2 = lit_0_7) ((k0, v) :: d').
Proof.
  intros Hev. revert v0 d. induction l as [|b l IH]; intros v0 d Hall.
  - by exists v0, d.
  - destruct (dict_set_head_scores k0 (alt_id b) v0 ev0 d Hev Hall)
      as (v1 & d1 & Heq & Hall1).
    cbn [fold_left]. rewrite Heq. by apply IH.
Qed.

Lemma max_by_overall_score_ties (best : string * evaluation)
  (l : list (string * evaluation)) :
  flt lit_0_7 lit_0_7 = false ->
  overall_score best.2 = lit_0_7 ->
  Forall (fun kv => overall_score kv.2 = lit_0_7) l ->
  max_by_overall_score best l = best.
Proof.
  intros Hirr Hbest. induction l as [|x l IH]; intros Hall; [done|].
  apply Forall_cons in Hall as [Hx Hl]. simpl.
  rewrite Hbest, Hx, Hirr. by apply IH.
Qed.

(** X17.  Every alternative is given the same overall score 0.7, so the
    maximum is a tie that its first key wins: whatever the alternatives,
    [_select_action] applied to their evaluation selects the first one,
    and raises [ValueError] when there is none.  (That 0.7 is not below
    itself holds in binary64 and in exact arithmetic.) *)
Theorem select_action_takes_first_alternative (alternatives : list alternative)
  (objectives constraints : list string) (now : Z) :
  flt lit_0_7 lit_0_7 = false ->
  _select_action (_evaluate_alternatives alternatives objectives constraints) now
  = match alternatives with
    | [] => Raise ExnValueError
    | a :: _ => Ok {| selected_id := alt_id a;
                      rationale := "Highest overall score";
                      confidence := lit_0_85;
                      selection_time := now |}
    end.
Proof.
  intros Hirr. destruct alternatives as [|a l]; [done|].
  unfold _evaluate_alternatives. simpl.
  set (ev0 := {| ev_scores := _; constraint_violations := _; overall_score := _ |}).
  assert (Hinv : exists v d,
            fold_left (fun evaluations alt => dict_set (alt_id alt) ev0 evaluations)
                      l [(alt_id a, ev0)] = (alt_id a, v) :: d
            /\ Forall (fun kv => overall_score kv.2 = lit_0_7) ((alt_id a, v) :: d)).
  { apply evaluate_fold_head; [done|]. by repeat constructor. }
  destruct Hinv as (v & d & -> & Hall). unfold _select_action.
  apply Forall_cons in Hall as [Hv Hd].
  by rewrite max_by_overall_score_ties.
Qed.

(** X19.  The history branch of [get_task_status] is dead in every
    state: the call never returns an archived task record and never
    falls through to [None].  It returns the "unknown" dictionary only
    while the history is empty, and raises [KeyError('task_id')] exactly
    for the task IDs that are not active once the history is not
    empty. *)
Theorem get_task_status_never_reads_history (task_id : string) (s : state) :
  (forall t, get_task_status task_id s <> Returned (StatusArchived t))
  /\ get_task_status task_id s <> Returned StatusNone
  /\ (forall u, get_task_status task_id s = Returned (StatusUnknown u) ->
        active_tasks s !! task_id = None /\ task_history s = [])
  /\ (forall key, get_task_status task_id s = KeyError key <->
        key = "task_id"
        /\ active_tasks s !! task_id = None /\ task_history s <> []).
Proof.
  destruct (active_tasks s !! task_id) as [t|] eqn:Ht.
  - unfold get_task_status. rewrite Ht. simpl.
    repeat split; try done. by intros (_ & ? & _).
  - rewrite (get_task_status_not_active _ _ Ht).
    destruct (task_history s) as [|t0 h].
    + repeat split; try done. by intros (_ & _ & ?).
    + split; [done|]. split; [done|]. split; [done|]. intros key. split.
      * by intros [= <-].
      * by intros (-> & _).
Qed.

End Coordinator.

(** ** Exact arithmetic *)

Section Exact.

#[local] Existing Instance rational.

Lemma replay_rate_exact (os : list bool) (n : nat) (r : Q) (k : Z) :
  (r * inject_Z (Z.of_nat n) == inject_Z k)%Q ->
  (@replay_rate Q rational os n r * inject_Z (Z.of_nat (n + length os))
   == inject_Z (k + Z.of_nat (completed_count os)))%Q.
Proof.
  revert n r k. induction os as [|o os IH]; intros n r k Hr; simpl.
  - rewrite Nat.add_0_r, Z.add_0_r. exact Hr.
  - replace (n + S (length os)) with (S n + length os) by lia.
    replace (k + Z.of_nat (completed_count (o :: os)))%Z
      with ((k + Z.of_nat (if o then 1 else 0)) + Z.of_nat (completed_count os))%Z
      by (unfold completed_count; destruct o; simpl; lia).
    apply IH. unfold new_success_rate.
    replace (Z.of_nat (S n) - 1)%Z with (Z.of_nat n) by lia.
    assert (Hn : ~ (inject_Z (Z.of_nat (S n)) == 0)%Q).
    { change 0%Q with (inject_Z 0). rewrite inject_Z_injective. lia. }
    destruct o; simpl; unfold Qdiv;
      rewrite <- Qmult_assoc, (Qmult_comm (/ _)), Qmult_inv_r, Qmult_1_r by exact Hn;
      rewrite Hr, <- inject_Z_plus; reflexivity.
Qed.

(** Over the rationals the replayed rate is the ratio of the "completed"
    outcomes. *)
Lemma replay_rate_ratio (os : list bool) :
  os <> [] ->
  (@replay_rate Q rational os 0 lit_1_0
   == inject_Z (Z.of_nat (completed_count os))
      / inject_Z (Z.of_nat (length os)))%Q.
Proof.
  intros Hos.
  pose proof (replay_rate_exact os 0 (inject_Z 1) 0 ltac:(reflexivity)) as Hex.
  simpl in Hex. change (@lit_1_0 Q rational) with (inject_Z 1).
  assert (Hlen : ~ (inject_Z (Z.of_nat (length os)) == 0)%Q).
  { change 0%Q with (inject_Z 0). rewrite inject_Z_injective.
    destruct os; [done|simpl; lia]. }
  rewrite <- Hex. unfold Qdiv.
  by rewrite <- Qmult_assoc, Qmult_inv_r, Qmult_1_r.
Qed.

(** C3, as the code has it.  In whatever arithmetic the interpreter
    computes, after [n] terminal transitions of tasks allocated to an
    agent its [tasks_completed] is [n] and its [success_rate] is the
    running average [(old_rate * (n-1) + outcome) / n] replayed over the
    [n] outcomes from the initial rate 1.0.  Replayed over the exact
    rationals on the same outcomes, whatever they are, the running
    average is the number of "completed" outcomes divided by [n]: the
    initial 1.0 leaves no trace. *)
Theorem success_rate_running_average :
  (forall (F : Type) (arith : Arith F) (cs : list call) (s : state)
          (agent_id : string) (a : agent_info),
     run init cs = Returned s ->
     agents_lookup agent_id (registered_agents s) = Some a ->
     tasks_completed (performance a) = length (outcomes agent_id init cs)
     /\ success_rate (performance a)
        = replay_rate (outcomes agent_id init cs) 0 lit_1_0)
  /\ (forall os : list bool,
        os <> [] ->
        (@replay_rate Q rational os 0 lit_1_0
         == inject_Z (Z.of_nat (completed_count os))
            / inject_Z (Z.of_nat (length os)))%Q).
Proof.
  split.
  - intros F arith cs s agent_id a Hrun Ha.
    pose proof (record_of_run agent_id cs init s wf_init Hrun) as Hrec.
    unfold record_of in Hrec. rewrite Ha in Hrec. simpl in Hrec.
    by injection Hrec as Hn Hr.
  - apply replay_rate_ratio.
Qed.

(** *** The average completion time *)

Lemma replay_mean_snoc (F : Type) (arith : Arith F) (l : list F) (d : F)
  (n : nat) (avg : F) :
  replay_mean (l ++ [d]) n avg
  = fdiv (fadd (fmul (replay_mean l n avg)
                     (of_int (Z.of_nat (S (n + length l)) - 1))) d)
         (of_int (Z.of_nat (S (n + length l)))).
Proof.
  revert n avg. induction l as [|x l IH]; intros n avg; simpl.
  - by rewrite Nat.add_0_r.
  - rewrite IH. by rewrite Nat.add_succ_r.
Qed.

(** [tasks_completed] counts the recorded durations, and the average is
    their running mean: every call keeps it so. *)
Lemma running_mean_step (F : Type) (arith : Arith F) (s s' : state) (c : call) :
  m_tasks_completed (metrics s) = length (completed_durations (task_history s))
  /\ average_completion_time (metrics s)
     = replay_mean (completed_durations (task_history s)) 0 (of_int 0) ->
  step s c = Returned s' ->
  m_tasks_completed (metrics s') = length (completed_durations (task_history s'))
  /\ average_completion_time (metrics s')
     = replay_mean (completed_durations (task_history s')) 0 (of_int 0).
Proof.
  intros [Hn Havg]. destruct c; simpl.
  - intros [= <-]. unfold register_agent. by destruct (agents_lookup _ _).
  - intros [= <-]. unfold allocate_task. by destruct (suitable_agents _ _).
  - unfold update_task_status.
    destruct (active_tasks s !! task_id) as [t|]; [|by intros [= <-]].
    destruct (is_terminal status); [|by intros [= <-]].
    destruct (settle_all _ _ _ _); [|done]. simpl. intros [= <-].
    unfold completed_durations. simpl.
    rewrite omap_app. simpl. unfold update_metrics.
    fold (completed_durations (task_history s)).
    destruct (String.eqb status "completed"); simpl.
    + rewrite length_app. simpl. split; [lia|].
      rewrite replay_mean_snoc. simpl. by rewrite Havg, Hn.
    + rewrite app_nil_r. by split.
Qed.

Lemma replay_mean_exact (ds : list Q) (n : nat) (avg k : Q) :
  (avg * inject_Z (Z.of_nat n) == k)%Q ->
  (@replay_mean Q rational ds n avg * inject_Z (Z.of_nat (n + length ds))
   == k + @sum_of Q rational ds)%Q.
Proof.
  revert n avg k. induction ds as [|d ds IH]; intros n avg k Hk.
  - simpl. rewrite Nat.add_0_r, Hk.
    change (@sum_of Q rational []) with (inject_Z 0). ring.
  - change (@replay_mean Q rational (d :: ds) n avg)
      with (@replay_mean Q rational ds (S n)
              ((avg * inject_Z (Z.of_nat (S n) - 1) + d)
               / inject_Z (Z.of_nat (S n)))%Q).
    change (@sum_of Q rational (d :: ds)) with (d + @sum_of Q rational ds)%Q.
    replace (n + length (d :: ds)) with (S n + length ds) by (simpl; lia).
    rewrite (IH (S n) _ (k + d)%Q); [ring|].
    replace (Z.of_nat (S n) - 1)%Z with (Z.of_nat n) by lia.
    assert (Hn : ~ (inject_Z (Z.of_nat (S n)) == 0)%Q).
    { change 0%Q with (inject_Z 0). rewrite inject_Z_injective. lia. }
    unfold Qdiv.
    by rewrite <- Qmult_assoc, (Qmult_comm (/ _)), Qmult_inv_r, Qmult_1_r, Hk.
Qed.

(** X18.  In whatever arithmetic the interpreter computes, in every
    reachable state [tasks_completed] is the number of durations recorded
    in the completed tasks of the history, and [average_completion_time]
    is the running mean [(avg * (n-1) + duration) / n] replayed over
    those durations, oldest first, from 0: failed tasks, and everything
    else in the state, do not enter it.  Replayed over the exact
    rationals on any durations, that running mean is their arithmetic
    mean. *)
Theorem average_completion_time_running_mean :
  (forall (F : Type) (arith : Arith F) (s : state),
     reachable s ->
     m_tasks_completed (metrics s)
     = length (completed_durations (task_history s))
     /\ average_completion_time (metrics s)
        = replay_mean (completed_durations (task_history s)) 0 (of_int 0))
  /\ (forall ds : list Q,
        ds <> [] ->
        (@replay_mean Q rational ds 0 (of_int 0)
         == @sum_of Q rational ds / inject_Z (Z.of_nat (length ds)))%Q).
Proof.
  split.
  - intros F arith s [cs Hcs]. revert Hcs.
    assert (Hinit :
      m_tasks_completed (metrics init)
      = length (completed_durations (task_history init))
      /\ average_completion_time (metrics init)
         = replay_mean (completed_durations (task_history init)) 0 (of_int 0))
      by (by split).
    revert Hinit. generalize init.
    induction cs as [|c cs IH]; intros s0 Hs0; simpl.
    + by intros [= <-].
    + destruct (step s0 c) as [s1|] eqn:Hs1; [|done]. simpl.
      apply IH. by eapply running_mean_step.
  - intros ds Hds.
    pose proof (replay_mean_exact ds 0 (inject_Z 0) 0 ltac:(reflexivity)) as Hex.
    simpl in Hex. change (@of_int Q rational 0) with (inject_Z 0).
    assert (Hlen : ~ (inject_Z (Z.of_nat (length ds)) == 0)%Q).
    { change 0%Q with (inject_Z 0). rewrite inject_Z_injective.
      destruct ds; [done|simpl; lia]. }
    rewrite Qplus_0_l in Hex. rewrite <- Hex. unfold Qdiv.
    by rewrite <- Qmult_assoc, Qmult_inv_r, Qmult_1_r.
Qed.

End Exact.

(** ** The scenarios, evaluated *)

Lemma register_agent_spec_witness :
  exists a s',
    @register_agent float binary64 "A3" "worker" ["vision"] None 7%Z None
      (state_after two_agents) = (true, s')
    /\ agents_lookup "A3" (registered_agents s') = Some a
    /\ assigned_tasks a = [] /\ success_rate (performance a) = lit_1_0.
Proof.
  destruct (proj2 (@register_agent_spec float binary64 "A3" "worker" ["vision"]
                     None 7%Z None (state_after two_agents)))
    as (a & s' & Hreg & _ & Ha & _ & Hassigned & _ & Hrate & _).
  - vm_compute. reflexivity.
  - exists a, s'. by repeat split.
Defined.

(** Scenario: a task requiring a capability no agent has. *)
Lemma allocate_task_no_suitable_agents_witness :
  exists u,
    @allocate_task float binary64 (spec_for "t" ["quantum"]) "task_00000000"
      5%Z None (state_after two_agents)
    = (Unallocated u, state_after two_agents)
    /\ u_status u = "unallocated"
    /\ u_reason u = "no_suitable_agents"
    /\ u_task_id u = "t".
Proof.
  apply (@allocate_task_no_suitable_agents float binary64).
  intros k a Hin _ Hsub.
  assert (Hq : "quantum" ∈ capabilities a)
    by (apply Hsub; simpl; apply elem_of_cons; by left).
  vm_compute in Hin.
  apply elem_of_cons in Hin as [[= -> ->]|Hin];
    [|apply elem_of_cons in Hin as [[= -> ->]|Hin]].
  - simpl in Hq. by apply list_elem_of_singleton in Hq.
  - simpl in Hq. apply elem_of_cons in Hq as [Hq|Hq]; [done|].
    by apply list_elem_of_singleton in Hq.
  - by apply not_elem_of_nil in Hin.
Defined.

Lemma update_task_status_known_iff_witness :
  exists b s',
    @update_task_status float binary64 "t" "completed" None None 9%Z
      (state_after one_task_in_progress) = Returned (b, s')
    /\ (b = true <-> is_Some (active_tasks (state_after one_task_in_progress) !! "t"))
    /\ (b = false -> s' = state_after one_task_in_progress).
Proof.
  apply (@update_task_status_known_iff float binary64).
  exists one_task_in_progress. vm_compute. reflexivity.
Defined.

(** Scenario: a parallel task and two eligible agents. *)
Lemma allocate_task_default_parallelism_witness :
  exists alloc s',
    @allocate_task float binary64 (parallel_spec "t" ["nlp"] None)
      "task_00000000" 5%Z None (state_after two_agents) = (Allocated alloc, s')
    /\ allocation_type alloc = "parallel"
    /\ allocated_agents alloc
       = sa_agent_id <$> take 2 (sort_desc (suitable_agents ["nlp"]
                                  (registered_agents (state_after two_agents))))
    /\ length (allocated_agents alloc) = 2.
Proof.
  apply (@allocate_task_default_parallelism float binary64
           (parallel_spec "t" ["nlp"] None)); [reflexivity | reflexivity |].
  vm_compute. lia.
Defined.

(** Scenario: parallelism 3 requested, two agents eligible. *)
Lemma allocate_task_strategy_witness :
  exists sorted alloc s',
    @allocate_task float binary64 (parallel_spec "t" ["nlp"] (Some 3%Z))
      "task_00000000" 5%Z None (state_after two_agents) = (Allocated alloc, s')
    /\ descending sorted
    /\ allocation_type alloc = "parallel"
    /\ allocated_agents alloc = sa_agent_id <$> take 2 sorted.
Proof.
  destruct (@allocate_task_strategy float binary64
              (parallel_spec "t" ["nlp"] (Some 3%Z)) "task_00000000" 5%Z None
              (state_after two_agents))
    as (sorted & alloc & s' & Halloc & _ & Hdesc & Hpar & _).
  - vm_compute. discriminate.
  - apply comparableb_sound. vm_compute. reflexivity.
  - exists sorted, alloc, s'. split; [exact Halloc|]. split; [exact Hdesc|].
    apply Hpar; [reflexivity | vm_compute; lia | vm_compute; discriminate].
Defined.

(** With a negative parallelism the slice [[:num_agents]] counts from the
    end of the candidate list: of two eligible agents one is selected,
    which is not [min(parallelism, eligibleCount)] of them. *)
Lemma negative_parallelism_selection :
  let spec := parallel_spec "t" ["nlp"] (Some (-1)%Z) in
  let s := @state_after float binary64 two_agents in
  let n := length (suitable_agents ["nlp"] (registered_agents s)) in
  exists alloc s',
    allocate_task spec "task_00000000" 5%Z None s = (Allocated alloc, s')
    /\ n = 2
    /\ allocation_type alloc = "parallel"
    /\ allocated_agents alloc = ["A1"]
    /\ Z.of_nat (length (allocated_agents alloc))
       <> (default 2%Z (ts_parallelism spec) `min` Z.of_nat n)%Z
    /\ allocated_agents alloc
       <> sa_agent_id <$>
            take (Z.to_nat (default 2%Z (ts_parallelism spec) `min` Z.of_nat n))
                 (sort_desc (suitable_agents ["nlp"] (registered_agents s))).
Proof.
  eexists _, _. split; [vm_compute; reflexivity|].
  repeat split; vm_compute; congruence.
Defined.

Lemma active_and_history_disjoint_witness :
  (forall t, is_Some (active_tasks (@state_after float binary64 id_reused_while_active) !! t) ->
     t ∉ history_ids (@state_after float binary64 id_reused_while_active))
  /\ NoDup (history_ids (@state_after float binary64 id_reused_while_active)).
Proof.
  apply (@active_and_history_disjoint float binary64 id_reused_while_active).
  - vm_compute. reflexivity.
  - repeat (apply Forall_cons; split;
            [vm_compute; try exact I; intros H; inversion H|]).
    apply Forall_nil. exact I.
Defined.

(** The ID of an archived task submitted again: the task is active and
    archived at once, and completing it archives the ID a second time. *)
Lemma task_id_reuse_breaks_disjointness :
  (exists s, @reachable float binary64 s
             /\ is_Some (active_tasks s !! "t") /\ "t" ∈ history_ids s)
  /\ (exists s, @reachable float binary64 s /\ ¬ NoDup (history_ids s)).
Proof.
  split.
  - exists (state_after id_reused_after_archival). split; [|split].
    + exists id_reused_after_archival. vm_compute. reflexivity.
    + vm_compute. by eexists.
    + vm_compute. apply elem_of_cons. by left.
  - exists (state_after id_archived_twice). split.
    + exists id_archived_twice. vm_compute. reflexivity.
    + vm_compute. intros Hnd. apply NoDup_cons in Hnd as [Hin _].
      apply Hin. apply elem_of_cons. by left.
Defined.

Lemma assigned_tasks_accounting_witness :
  exists a,
    agents_lookup "A1"
      (registered_agents (@state_after float binary64 id_reused_while_active)) = Some a
    /\ length (assigned_tasks a)
       + terminal_transitions "A1" init id_reused_while_active
       = allocations "A1" init id_reused_while_active.
Proof.
  eexists. split; [vm_compute; reflexivity|].
  apply (@assigned_tasks_accounting float binary64 id_reused_while_active
           (state_after id_reused_while_active) "A1");
    vm_compute; reflexivity.
Defined.

(** Task "t" is allocated to A1, allocated again (to A2) while active,
    and completed.  A1 was selected once and the task ID it was given has
    reached "completed", yet its list still holds the ID. *)
Lemma task_id_reuse_leaks_assignment :
  let cs := @id_reused_while_active float in
  exists a h,
    agents_lookup "A1" (registered_agents (@state_after float binary64 cs)) = Some a
    /\ assigned_tasks a = ["t"]
    /\ task_history (@state_after float binary64 cs) = [h]
    /\ al_task_id (t_allocation h) = "t" /\ t_status h = "completed"
    /\ @allocations float binary64 "A1" init cs = 1
    /\ terminated_by_id "A1" (@trace float binary64 init cs) = 1
    /\ length (assigned_tasks a)
       <> @allocations float binary64 "A1" init cs
          - terminated_by_id "A1" (@trace float binary64 init cs).
Proof.
  eexists _, _. split; [vm_compute; reflexivity|].
  repeat split; vm_compute; congruence.
Defined.

(** One task completed: the archived task record says "completed", its
    allocation record still "allocated". *)
Lemma allocation_status_stays_allocated :
  exists s s' h,
    @run float binary64 init one_task_in_progress = Returned s
    /\ update_task_status "t" "completed" None (Some "success") 3%Z s
       = Returned (true, s')
    /\ task_history s' = [h]
    /\ al_task_id (t_allocation h) = "t"
    /\ t_status h = "completed"
    /\ al_status (t_allocation h) = "allocated"
    /\ al_status (t_allocation h) <> t_status h.
Proof.
  eexists _, _, _. split; [vm_compute; reflexivity|].
  split; [vm_compute; reflexivity|].
  split; [vm_compute; reflexivity|].
  repeat split; vm_compute; congruence.
Defined.

Lemma allocation_record_never_modified_witness :
  @allocations_untouched float (state_after one_task_completed).
Proof.
  apply (@allocation_record_never_modified float binary64).
  exists one_task_completed. vm_compute. reflexivity.
Defined.

(** Three outcomes, two of them "completed": binary64 replays them, and
    over the rationals the rate is 2/3. *)
Lemma success_rate_running_average_witness :
  let cs := Register "A1" "worker" [] None 0%Z None
            :: settle_each [true; false; true] in
  exists a,
    agents_lookup "A1" (registered_agents (@state_after float binary64 cs)) = Some a
    /\ tasks_completed (performance a) = 3
    /\ success_rate (performance a)
       = @replay_rate float binary64 [true; false; true] 0 lit_1_0
    /\ (@replay_rate Q rational [true; false; true] 0 (inject_Z 1) == 2 # 3)%Q.
Proof.
  intros cs. destruct success_rate_running_average as [Hrun Hexact].
  eexists. split; [vm_compute; reflexivity|].
  split; [|split].
  - apply (Hrun float binary64 cs (state_after cs) "A1");
      vm_compute; reflexivity.
  - apply (Hrun float binary64 cs (state_after cs) "A1");
      vm_compute; reflexivity.
  - rewrite (Hexact [true; false; true]) by discriminate.
    vm_compute. reflexivity.
Defined.

(** In binary64 the running average drifts from the ratio: after 15
    completed and 8 failed tasks the rate is one unit in the last place
    below 15/23. *)
Lemma success_rate_rounding :
  let cs := Register "A1" "worker" [] None 0%Z None
            :: settle_each (replicate 15 true ++ replicate 8 false) in
  exists a,
    agents_lookup "A1" (registered_agents (@state_after float binary64 cs)) = Some a
    /\ tasks_completed (performance a) = 23
    /\ @outcomes float binary64 "A1" init cs
       = replicate 15 true ++ replicate 8 false
    /\ PrimFloat.ltb (success_rate (performance a))
                     (fdiv (of_int 15) (of_int 23)) = true
    /\ success_rate (performance a) <> fdiv (of_int 15) (of_int 23).
Proof.
  eexists. split; [vm_compute; reflexivity|].
  split; [vm_compute; reflexivity|].
  split; [vm_compute; reflexivity|].
  split; [vm_compute; reflexivity|].
  intros Heq.
  apply (f_equal (fun x => PrimFloat.ltb x (fdiv (of_int 15) (of_int 23)))) in Heq.
  vm_compute in Heq. discriminate.
Defined.

(** C1 at an agent holding eleven tasks: the load factor is 1.1, above
    the 0-1 scale, and the score falls below the score that a load factor
    capped at 1.0 gives. *)
Lemma load_factor_exceeds_one :
  let s := @state_after float binary64
             (Register "A1" "worker" ["nlp"] None 0%Z None :: backlog 11) in
  exists a x,
    agents_lookup "A1" (registered_agents s) = Some a
    /\ length (assigned_tasks a) = 11
    /\ suitable_agents [] (registered_agents s) = [x]
    /\ load_factor x = fdiv (of_int 11) (of_int 10)
    /\ flt lit_1_0 (load_factor x) = true
    /\ flt (score x) (capped_score [] a) = true.
Proof.
  eexists _, _. split; [vm_compute; reflexivity|].
  split; [vm_compute; reflexivity|].
  split; [vm_compute; reflexivity|].
  repeat split; vm_compute; reflexivity.
Defined.

Lemma counters_match_history_witness :
  m_tasks_completed (metrics (@state_after float binary64 id_archived_twice))
  + m_tasks_failed (metrics (@state_after float binary64 id_archived_twice))
  = 2.
Proof.
  rewrite (@counters_match_history float binary64).
  - vm_compute. reflexivity.
  - exists id_archived_twice. vm_compute. reflexivity.
Defined.

(** Scenario: a task allocated to A1 and read back. *)
Lemma get_task_status_after_allocate_witness :
  exists alloc s' t,
    @allocate_task float binary64 (spec_for "t" ["nlp"]) "task_00000000" 5%Z None
      (state_after two_agents) = (Allocated alloc, s')
    /\ active_tasks s' !! al_task_id alloc = Some t
    /\ t_spec t = spec_for "t" ["nlp"]
    /\ get_task_status (al_task_id alloc) s'
       = Returned (StatusActive {| as_task_id := al_task_id alloc;
                                   as_status := "allocated";
                                   as_progress := lit_0_0;
                                   as_allocation := alloc;
                                   as_start_time := start_time t |}).
Proof.
  destruct (@allocate_task float binary64 (spec_for "t" ["nlp"]) "task_00000000"
              5%Z None (state_after two_agents)) as [[u|alloc] s'] eqn:H.
  { vm_compute in H. discriminate. }
  destruct (@get_task_status_after_allocate float binary64 _ _ _ _ _ _ _ H)
    as (t & Ht & Hspec & Hget).
  exists alloc, s', t. by repeat split.
Defined.

(** Scenario: the task under way is put under review at 75 percent. *)
Lemma get_task_status_after_update_witness :
  exists t,
    active_tasks (@state_after float binary64 one_task_in_progress) !! "t" = Some t
    /\ get_task_status "t"
         (state_after (one_task_in_progress
                       ++ [Update "t" "reviewing" (Some (of_int 75)) None 5%Z]))
       = Returned (StatusActive {| as_task_id := "t";
                                   as_status := "reviewing";
                                   as_progress := of_int 75;
                                   as_allocation := t_allocation t;
                                   as_start_time := start_time t |}).
Proof.
  apply (@get_task_status_after_update float binary64 "t" "reviewing"
           (Some (of_int 75)) None 5%Z (state_after one_task_in_progress)).
  - vm_compute. reflexivity.
  - reflexivity.
Defined.

(** Scenario: the completed task can no longer be read. *)
Lemma get_task_status_after_archival_witness :
  get_task_status "t" (@state_after float binary64 one_task_completed)
  = KeyError "task_id"
  /\ forall t,
       active_tasks (@state_after float binary64 one_task_completed) !! t = None ->
       get_task_status t (@state_after float binary64 one_task_completed)
       = KeyError "task_id".
Proof.
  apply (@get_task_status_after_archival float binary64 "t" "completed" None
           (Some "success") 3%Z (state_after one_task_in_progress)).
  - vm_compute. reflexivity.
  - reflexivity.
Defined.

Lemma system_status_of_reachable_witness :
  let s := @state_after float binary64 id_reused_while_active in
  let st := get_system_status 9%Z s in
  Forall (fun ka => a_status ka.2 = "active") (registered_agents s)
  /\ ss_agents_active st = length (registered_agents s)
  /\ ss_agents_active st = ss_agents_total st
  /\ ss_agents_inactive st = 0%Z.
Proof.
  apply (@system_status_of_reachable float binary64 9%Z).
  exists id_reused_while_active. vm_compute. reflexivity.
Defined.

Lemma active_tasks_linked_to_agents_witness :
  let s := @state_after float binary64 one_agent_busy in
  NoDup (fst <$> registered_agents s)
  /\ forall t task,
       active_tasks s !! t = Some task ->
       al_task_id (t_allocation task) = t
       /\ NoDup (allocated_agents (t_allocation task))
       /\ forall k, k ∈ allocated_agents (t_allocation task) ->
            exists a, agents_lookup k (registered_agents s) = Some a
                      /\ t ∈ assigned_tasks a.
Proof.
  apply (@active_tasks_linked_to_agents float binary64).
  exists one_agent_busy. vm_compute. reflexivity.
Defined.

(** Scenario: a second task goes to the idle agent A2. *)
Lemma allocate_task_assigns_selected_witness :
  let s := @state_after float binary64 one_agent_busy in
  exists alloc s' a a',
    allocate_task (spec_for "u" ["nlp"]) "task_00000001" 5%Z None s
    = (Allocated alloc, s')
    /\ fst <$> registered_agents s' = fst <$> registered_agents s
    /\ agents_lookup "A1" (registered_agents s) = Some a
    /\ agents_lookup "A1" (registered_agents s') = Some a'
    /\ ("A1" ∈ allocated_agents alloc ->
        assigned_tasks a' = assigned_tasks a ++ [al_task_id alloc])
    /\ ("A1" ∉ allocated_agents alloc -> a' = a)
    /\ task_history s' = task_history s
    /\ metrics s' = metrics s.
Proof.
  intros s.
  destruct (allocate_task (spec_for "u" ["nlp"]) "task_00000001" 5%Z None s)
    as [[u|alloc] s'] eqn:H.
  { vm_compute in H. discriminate. }
  destruct (agents_lookup "A1" (registered_agents s)) as [a|] eqn:Ha.
  2: { vm_compute in Ha. discriminate. }
  destruct (@allocate_task_assigns_selected float binary64
              (spec_for "u" ["nlp"]) "task_00000001" 5%Z None s s' alloc)
    as (Hkeys & Hagents & Hhist & Hmetrics & _).
  - exists one_agent_busy. vm_compute. reflexivity.
  - exact H.
  - destruct (Hagents "A1" a Ha) as (a' & Ha' & Hin & Hout).
    exists alloc, s', a, a'.
    split; [reflexivity|]. split; [exact Hkeys|]. split; [reflexivity|].
    split; [exact Ha'|]. split; [intros Hk; by apply Hin|].
    split; [exact Hout|]. split; [exact Hhist|exact Hmetrics].
Defined.

(** Scenario: the task under way is completed. *)
Lemma update_task_status_settles_agents_witness :
  let s := @state_after float binary64 one_task_in_progress in
  exists s',
    update_task_status "t" "completed" None (Some "success") 3%Z s
    = Returned (true, s')
    /\ active_tasks s' = delete "t" (active_tasks s)
    /\ exists t', task_history s' = task_history s ++ [t']
                  /\ t_status t' = "completed"
                  /\ end_time t' = Some 3%Z.
Proof.
  intros s.
  destruct (active_tasks s !! "t") as [t|] eqn:Ht.
  2: { vm_compute in Ht. discriminate. }
  destruct (@update_task_status_settles_agents float binary64 "t" "completed"
              None (Some "success") 3%Z s (state_after one_task_completed) t)
    as (Hactive & (t' & Hhist & Hstatus & _ & Hend & _) & _).
  - exists one_task_in_progress. vm_compute. reflexivity.
  - exact Ht.
  - reflexivity.
  - vm_compute. reflexivity.
  - exists (state_after one_task_completed).
    split; [vm_compute; reflexivity|]. split; [exact Hactive|].
    exists t'. by repeat split.
Defined.

(** Scenario: A2 as registered, and after it has completed a task. *)
Lemma agent_records_persist_witness :
  exists a a',
    agents_lookup "A2"
      (registered_agents (@state_after float binary64 one_agent_busy)) = Some a
    /\ agents_lookup "A2"
         (registered_agents (@state_after float binary64 id_reused_while_active))
       = Some a'
    /\ agent_type a' = agent_type a
    /\ capabilities a' = capabilities a
    /\ endpoint a' = endpoint a
    /\ a_status a' = a_status a
    /\ registration_time a' = registration_time a
    /\ tasks_completed (performance a) <= tasks_completed (performance a').
Proof.
  destruct (agents_lookup "A2"
              (registered_agents (@state_after float binary64 one_agent_busy)))
    as [a|] eqn:Ha.
  2: { vm_compute in Ha. discriminate. }
  destruct (@agent_records_persist float binary64
              [ Allocate (spec_for "t" ["nlp"]) "task_00000001" 3%Z None;
                Update "t" "completed" None None 4%Z ]
              (state_after one_agent_busy)
              (state_after id_reused_while_active) "A2" a)
    as (a' & Ha' & Hrest).
  - exists one_agent_busy. vm_compute. reflexivity.
  - vm_compute. reflexivity.
  - exact Ha.
  - exists a, a'. split; [reflexivity|]. split; [exact Ha'|]. exact Hrest.
Defined.

(** Scenario: a parallel task with parallelism 0 is allocated to no
    agent. *)
Lemma allocation_size_witness :
  exists alloc s',
    @allocate_task float binary64 (parallel_spec "t" ["nlp"] (Some 0%Z))
      "task_00000000" 5%Z None (state_after two_agents) = (Allocated alloc, s')
    /\ allocation_type alloc = "parallel"
    /\ length (allocated_agents alloc) = 0.
Proof.
  destruct (@allocate_task float binary64 (parallel_spec "t" ["nlp"] (Some 0%Z))
              "task_00000000" 5%Z None (state_after two_agents))
    as [[u|alloc] s'] eqn:H.
  { vm_compute in H. discriminate. }
  exists alloc, s'. split; [reflexivity|].
  destruct (@allocation_size float binary64 _ _ _ _ _ _ _ H)
    as [[Hty _]|(Hty & _ & _ & Hlen)].
  - vm_compute in H. injection H as <- _. vm_compute in Hty. discriminate.
  - split; [exact Hty|].
    lazymatch type of Hlen with
    | _ = ?r => let r' := eval vm_compute in r in change r with r' in Hlen
    end.
    lia.
Defined.

(** Scenario: A1 is busy, so the idle agent A2, registered after it, is
    selected. *)
Lemma first_selected_beats_earlier_candidates_witness :
  let s := @state_after float binary64 one_agent_busy in
  exists alloc s' pre top post,
    allocate_task (spec_for "u" ["nlp"]) "task_00000001" 5%Z None s
    = (Allocated alloc, s')
    /\ head (allocated_agents alloc) = Some "A2"
    /\ suitable_agents ["nlp"] (registered_agents s) = pre ++ top :: post
    /\ sa_agent_id top = "A2"
    /\ Forall (fun y => flt (score y) (score top) = true) pre.
Proof.
  intros s.
  destruct (allocate_task (spec_for "u" ["nlp"]) "task_00000001" 5%Z None s)
    as [[u|alloc] s'] eqn:H.
  { vm_compute in H. discriminate. }
  assert (Hhead : head (allocated_agents alloc) = Some "A2").
  { vm_compute in H. injection H as <- _. reflexivity. }
  destruct (@first_selected_beats_earlier_candidates float binary64 _ _ _ _ _ _
              _ _ H Hhead) as (pre & top & post & Hsplit & Htop & Hpre).
  exists alloc, s', pre, top, post. by repeat split.
Defined.

(** Scenario: of A1 {nlp} and A2 {nlp, vision}, a candidate for a task
    that needs both capabilities has both. *)
Lemma candidates_match_every_capability_witness :
  exists x k a,
    head (suitable_agents ["nlp"; "vision"]
            (registered_agents (@state_after float binary64 two_agents))) = Some x
    /\ (k, a) ∈ registered_agents (@state_after float binary64 two_agents)
    /\ x = score_agent ["nlp"; "vision"] k a
    /\ a_status a = "active"
    /\ length (List.filter (fun cap => mem cap (capabilities a)) ["nlp"; "vision"])
       = 2.
Proof.
  destruct (suitable_agents ["nlp"; "vision"]
              (registered_agents (@state_after float binary64 two_agents)))
    as [|x rest] eqn:H.
  { vm_compute in H. discriminate. }
  destruct (@candidates_match_every_capability float binary64 ["nlp"; "vision"]
              (registered_agents (state_after two_agents)) x)
    as (k & a & Hin & Hx & Hactive & Hlen).
  - rewrite H. apply elem_of_cons. by left.
  - exists x, k, a. by repeat split.
Defined.

(** Scenario: the ID "t" is used again, but only after its first task was
    archived. *)
Lemma assigned_tasks_are_active_tasks_witness :
  exists a,
    agents_lookup "A1"
      (registered_agents (@state_after float binary64 id_reused_after_archival))
    = Some a
    /\ NoDup (assigned_tasks a)
    /\ forall t, t ∈ assigned_tasks a <->
         exists task,
           active_tasks (@state_after float binary64 id_reused_after_archival) !! t
           = Some task
           /\ "A1" ∈ allocated_agents (t_allocation task).
Proof.
  eexists. split; [vm_compute; reflexivity|].
  apply (@assigned_tasks_are_active_tasks float binary64 id_reused_after_archival
           (state_after id_reused_after_archival) "A1").
  - vm_compute. reflexivity.
  - repeat (apply Forall_cons; split;
            [vm_compute; first [exact I | reflexivity]|]).
    apply Forall_nil. exact I.
  - vm_compute. reflexivity.
Defined.

(** Scenario: a decision taken with an analyst and a runner registered,
    and nobody for quality assurance. *)
Lemma execute_strategic_decision_completes_its_tasks_witness :
  let s := @state_after float binary64 plan_agents in
  exists d s' new,
    execute_strategic_decision demo_context demo_world s = Ok (d, Returned s')
    /\ d_status d = "in_progress"
    /\ plan_tasks (d_execution_plan d) = et_task_spec <$> d_execution_tasks d
    /\ active_tasks s' = active_tasks s
    /\ (forall k, load k s' = load k s)
    /\ task_history s' = task_history s ++ new
    /\ (fun t => al_task_id (t_allocation t)) <$> new
       = omap allocated_task_id (d_execution_tasks d)
    /\ Forall (fun t => t_status t = "completed" /\ progress t = of_int 100) new
    /\ m_tasks_completed (metrics s')
       = m_tasks_completed (metrics s) + length new
    /\ m_tasks_failed (metrics s') = m_tasks_failed (metrics s).
Proof.
  apply (@execute_strategic_decision_completes_its_tasks float binary64
           demo_context demo_world).
  - exists plan_agents. vm_compute. reflexivity.
  - apply (bool_decide_unpack _). vm_compute. exact I.
  - intros t Ht.
    repeat (apply elem_of_cons in Ht as [->|Ht]; [vm_compute; reflexivity|]).
    by apply not_elem_of_nil in Ht.
Defined.

(** In binary64 the three placeholder alternatives tie at 0.7, and the
    first is selected. *)
Lemma select_action_takes_first_alternative_witness :
  @_select_action float binary64
    (_evaluate_alternatives
       (_generate_alternatives demo_context (_assess_situation demo_context 10%Z))
       [] [])
    10%Z
  = Ok {| selected_id := "alt1";
          rationale := "Highest overall score";
          confidence := lit_0_85;
          selection_time := 10%Z |}.
Proof.
  apply (@select_action_takes_first_alternative float binary64
           (_generate_alternatives demo_context (_assess_situation demo_context 10%Z))).
  vm_compute. reflexivity.
Defined.

(** Scenario: two tasks completed and one failed in binary64; over the
    rationals, the mean of 3, 1 and 4 is 8/3. *)
Lemma average_completion_time_running_mean_witness :
  let s := @state_after float binary64
             (Register "A1" "worker" [] None 0%Z None
              :: settle_each [true; false; true]) in
  m_tasks_completed (metrics s) = 2
  /\ length (task_history s) = 3
  /\ average_completion_time (metrics s)
     = replay_mean (completed_durations (task_history s)) 0 (of_int 0)
  /\ (@replay_mean Q rational [3; 1; 4] 0 (inject_Z 0) == 8 # 3)%Q.
Proof.
  intros s. destruct average_completion_time_running_mean as [Hrun Hexact].
  destruct (Hrun float binary64 s) as [Hn Havg].
  { exists (Register "A1" "worker" [] None 0%Z None
            :: settle_each [true; false; true]).
    vm_compute. reflexivity. }
  split; [vm_compute; reflexivity|]. split; [vm_compute; reflexivity|].
  split; [exact Havg|].
  rewrite (Hexact [3; 1; 4]%Q) by discriminate.
  vm_compute. reflexivity.
Defined.
